(** * User Management API (main.py): a shallow embedding and its properties

    The service keeps its records in the module-level dictionary [users_db],
    keyed by the user's id.  Every handler of main.py is embedded below as a
    computation over that dictionary which may raise an [HTTPException]; the
    routes add what the decorators and parameter declarations of main.py
    state: the schema check of the request ([Field] and [Query] bounds, answer
    422) and the status code of a successful answer.

    Conventions of the embedding:
    - a Python [int] is a [Z]; a Python [str] is the list of its code
      points, each an [N], so [len] is [length]; the fixed messages of the
      program are kept as [string]s;
    - [str.lower] is modelled as the interpreter computes it: code point by
      code point through the lower-case table of the Unicode character
      database (version 14.0), with its two special cases, U+0130, which
      becomes two code points, and the capital sigma U+03A3, whose lower
      case depends on the letters around it;
    - the dictionary is a [gmap Z User.t]; the dict produced by [user.dict()]
      has exactly the four keys of the model and is kept as a [User.t];
      a [gmap] lists its entries by key, a Python dict by insertion, and
      no statement below depends on the order in which the values are
      listed;
    - request bodies are well-typed JSON objects: every field of the schema
      is present with a value of the declared type, and only the declared
      bounds can fail;
    - [response_model] re-validates an outgoing record against the [User]
      schema; stored records always satisfy it (the store invariant below), so
      this pass is the identity on every store the service can reach and is
      left out of the routes. *)

From Stdlib Require Import ZArith NArith String Ascii Bool List Lia.
From stdpp Require Import base option list gmap fin_maps.

Local Open Scope string_scope.
Local Open Scope Z_scope.
Local Open Scope list_scope.
Local Open Scope stdpp_scope.

(** ** Data model *)

(** A Python [str]: the sequence of its code points. *)
Abbreviation str := (list N).

(** The [str] of a literal written with characters below 256. *)
Definition text (s : string) : str :=
  N_of_ascii <$> list_ascii_of_string s.

(** [class User(BaseModel)]. *)
Module User.
Record t : Type := mk {
  id : Z;
  name : str;
  phone_no : str;
  address : str
}.
End User.

(** [class UserUpdate(BaseModel)]: each field is [Optional], default [None]. *)
Module UserUpdate.
Record t : Type := mk {
  name : option str;
  phone_no : option str;
  address : option str
}.
End UserUpdate.

(** [users_db = {}]: the type of the dictionary. *)
Abbreviation Store := (gmap Z User.t).

(** [raise HTTPException(status_code=..., detail=...)]. *)
Record HTTPException : Type := mkHTTPException {
  exc_status_code : Z;
  exc_detail : string
}.

(** What a route sends back: the JSON body and the status code. *)
Inductive Body : Type :=
| BMessage (message : string)          (* {"message": ...} *)
| BDetail (detail : string)            (* {"detail": ...} of an HTTPException *)
| BUser (user : User.t)                (* a user object *)
| BUsers (users : list User.t)         (* a list of user objects *)
| BInvalid (fields : list string).     (* the fields refused by the schema *)

Record Response : Type := mkResponse {
  status_code : Z;
  body : Body
}.

(** ** Strings: [len], [str.lower] and [in] *)

(** The case data of the Unicode character database that [str.lower]
    consults.  [lower_ranges] is the lower-case mapping of every code point
    but U+0130, in rows [(lo, count, step, target)]; a code point in no row
    is its own lower case.  [case_ignorable_ranges] holds the
    case-ignorable code points, [cased_ranges] the cased code points that
    are not case-ignorable, both as inclusive ranges. *)
Definition lower_ranges : list (N * N * N * N) :=
  [
   (65, 26, 1, 97); (192, 23, 1, 224); (216, 7, 1, 248);
   (256, 24, 2, 257); (306, 3, 2, 307); (313, 8, 2, 314);
   (330, 23, 2, 331); (376, 1, 1, 255); (377, 3, 2, 378);
   (385, 1, 1, 595); (386, 2, 2, 387); (390, 1, 1, 596);
   (391, 1, 1, 392); (393, 2, 1, 598); (395, 1, 1, 396);
   (398, 1, 1, 477); (399, 1, 1, 601); (400, 1, 1, 603);
   (401, 1, 1, 402); (403, 1, 1, 608); (404, 1, 1, 611);
   (406, 1, 1, 617); (407, 1, 1, 616); (408, 1, 1, 409);
   (412, 1, 1, 623); (413, 1, 1, 626); (415, 1, 1, 629);
   (416, 3, 2, 417); (422, 1, 1, 640); (423, 1, 1, 424);
   (425, 1, 1, 643); (428, 1, 1, 429); (430, 1, 1, 648);
   (431, 1, 1, 432); (433, 2, 1, 650); (435, 2, 2, 436);
   (439, 1, 1, 658); (440, 1, 1, 441); (444, 1, 1, 445);
   (452, 1, 1, 454); (453, 1, 1, 454); (455, 1, 1, 457);
   (456, 1, 1, 457); (458, 1, 1, 460); (459, 9, 2, 460);
   (478, 9, 2, 479); (497, 1, 1, 499); (498, 2, 2, 499);
   (502, 1, 1, 405); (503, 1, 1, 447); (504, 20, 2, 505);
   (544, 1, 1, 414); (546, 9, 2, 547); (570, 1, 1, 11365);
   (571, 1, 1, 572); (573, 1, 1, 410); (574, 1, 1, 11366);
   (577, 1, 1, 578); (579, 1, 1, 384); (580, 1, 1, 649);
   (581, 1, 1, 652); (582, 5, 2, 583); (880, 2, 2, 881);
   (886, 1, 1, 887); (895, 1, 1, 1011); (902, 1, 1, 940);
   (904, 3, 1, 941); (908, 1, 1, 972); (910, 2, 1, 973);
   (913, 17, 1, 945); (931, 9, 1, 963); (975, 1, 1, 983);
   (984, 12, 2, 985); (1012, 1, 1, 952); (1015, 1, 1, 1016);
   (1017, 1, 1, 1010); (1018, 1, 1, 1019); (1021, 3, 1, 891);
   (1024, 16, 1, 1104); (1040, 32, 1, 1072); (1120, 17, 2, 1121);
   (1162, 27, 2, 1163); (1216, 1, 1, 1231); (1217, 7, 2, 1218);
   (1232, 48, 2, 1233); (1329, 38, 1, 1377); (4256, 38, 1, 11520);
   (4295, 1, 1, 11559); (4301, 1, 1, 11565); (5024, 80, 1, 43888);
   (5104, 6, 1, 5112); (7312, 43, 1, 4304); (7357, 3, 1, 4349);
   (7680, 75, 2, 7681); (7838, 1, 1, 223); (7840, 48, 2, 7841);
   (7944, 8, 1, 7936); (7960, 6, 1, 7952); (7976, 8, 1, 7968);
   (7992, 8, 1, 7984); (8008, 6, 1, 8000); (8025, 4, 2, 8017);
   (8040, 8, 1, 8032); (8072, 8, 1, 8064); (8088, 8, 1, 8080);
   (8104, 8, 1, 8096); (8120, 2, 1, 8112); (8122, 2, 1, 8048);
   (8124, 1, 1, 8115); (8136, 4, 1, 8050); (8140, 1, 1, 8131);
   (8152, 2, 1, 8144); (8154, 2, 1, 8054); (8168, 2, 1, 8160);
   (8170, 2, 1, 8058); (8172, 1, 1, 8165); (8184, 2, 1, 8056);
   (8186, 2, 1, 8060); (8188, 1, 1, 8179); (8486, 1, 1, 969);
   (8490, 1, 1, 107); (8491, 1, 1, 229); (8498, 1, 1, 8526);
   (8544, 16, 1, 8560); (8579, 1, 1, 8580); (9398, 26, 1, 9424);
   (11264, 48, 1, 11312); (11360, 1, 1, 11361); (11362, 1, 1, 619);
   (11363, 1, 1, 7549); (11364, 1, 1, 637); (11367, 3, 2, 11368);
   (11373, 1, 1, 593); (11374, 1, 1, 625); (11375, 1, 1, 592);
   (11376, 1, 1, 594); (11378, 1, 1, 11379); (11381, 1, 1, 11382);
   (11390, 2, 1, 575); (11392, 50, 2, 11393); (11499, 2, 2, 11500);
   (11506, 1, 1, 11507); (42560, 23, 2, 42561); (42624, 14, 2, 42625);
   (42786, 7, 2, 42787); (42802, 31, 2, 42803); (42873, 2, 2, 42874);
   (42877, 1, 1, 7545); (42878, 5, 2, 42879); (42891, 1, 1, 42892);
   (42893, 1, 1, 613); (42896, 2, 2, 42897); (42902, 10, 2, 42903);
   (42922, 1, 1, 614); (42923, 1, 1, 604); (42924, 1, 1, 609);
   (42925, 1, 1, 620); (42926, 1, 1, 618); (42928, 1, 1, 670);
   (42929, 1, 1, 647); (42930, 1, 1, 669); (42931, 1, 1, 43859);
   (42932, 8, 2, 42933); (42948, 1, 1, 42900); (42949, 1, 1, 642);
   (42950, 1, 1, 7566); (42951, 2, 2, 42952); (42960, 1, 1, 42961);
   (42966, 2, 2, 42967); (42997, 1, 1, 42998); (65313, 26, 1, 65345);
   (66560, 40, 1, 66600); (66736, 36, 1, 66776); (66928, 19, 2, 66967);
   (66929, 5, 2, 66968); (66941, 7, 2, 66980); (66957, 3, 2, 66996);
   (66965, 1, 1, 67004); (68736, 51, 1, 68800); (71840, 32, 1, 71872);
   (93760, 32, 1, 93792); (125184, 34, 1, 125218)
  ]%N.

Definition case_ignorable_ranges : list (N * N) :=
  [
   (39, 39); (46, 46); (58, 58); (94, 94); (96, 96);
   (168, 168); (173, 173); (175, 175); (180, 180); (183, 184);
   (688, 879); (884, 885); (890, 890); (900, 901); (903, 903);
   (1155, 1161); (1369, 1369); (1375, 1375); (1425, 1469); (1471, 1471);
   (1473, 1474); (1476, 1477); (1479, 1479); (1524, 1524); (1536, 1541);
   (1552, 1562); (1564, 1564); (1600, 1600); (1611, 1631); (1648, 1648);
   (1750, 1757); (1759, 1768); (1770, 1773); (1807, 1807); (1809, 1809);
   (1840, 1866); (1958, 1968); (2027, 2037); (2042, 2042); (2045, 2045);
   (2070, 2093); (2137, 2139); (2184, 2184); (2192, 2193); (2200, 2207);
   (2249, 2306); (2362, 2362); (2364, 2364); (2369, 2376); (2381, 2381);
   (2385, 2391); (2402, 2403); (2417, 2417); (2433, 2433); (2492, 2492);
   (2497, 2500); (2509, 2509); (2530, 2531); (2558, 2558); (2561, 2562);
   (2620, 2620); (2625, 2626); (2631, 2632); (2635, 2637); (2641, 2641);
   (2672, 2673); (2677, 2677); (2689, 2690); (2748, 2748); (2753, 2757);
   (2759, 2760); (2765, 2765); (2786, 2787); (2810, 2815); (2817, 2817);
   (2876, 2876); (2879, 2879); (2881, 2884); (2893, 2893); (2901, 2902);
   (2914, 2915); (2946, 2946); (3008, 3008); (3021, 3021); (3072, 3072);
   (3076, 3076); (3132, 3132); (3134, 3136); (3142, 3144); (3146, 3149);
   (3157, 3158); (3170, 3171); (3201, 3201); (3260, 3260); (3263, 3263);
   (3270, 3270); (3276, 3277); (3298, 3299); (3328, 3329); (3387, 3388);
   (3393, 3396); (3405, 3405); (3426, 3427); (3457, 3457); (3530, 3530);
   (3538, 3540); (3542, 3542); (3633, 3633); (3636, 3642); (3654, 3662);
   (3761, 3761); (3764, 3772); (3782, 3782); (3784, 3789); (3864, 3865);
   (3893, 3893); (3895, 3895); (3897, 3897); (3953, 3966); (3968, 3972);
   (3974, 3975); (3981, 3991); (3993, 4028); (4038, 4038); (4141, 4144);
   (4146, 4151); (4153, 4154); (4157, 4158); (4184, 4185); (4190, 4192);
   (4209, 4212); (4226, 4226); (4229, 4230); (4237, 4237); (4253, 4253);
   (4348, 4348); (4957, 4959); (5906, 5908); (5938, 5939); (5970, 5971);
   (6002, 6003); (6068, 6069); (6071, 6077); (6086, 6086); (6089, 6099);
   (6103, 6103); (6109, 6109); (6155, 6159); (6211, 6211); (6277, 6278);
   (6313, 6313); (6432, 6434); (6439, 6440); (6450, 6450); (6457, 6459);
   (6679, 6680); (6683, 6683); (6742, 6742); (6744, 6750); (6752, 6752);
   (6754, 6754); (6757, 6764); (6771, 6780); (6783, 6783); (6823, 6823);
   (6832, 6862); (6912, 6915); (6964, 6964); (6966, 6970); (6972, 6972);
   (6978, 6978); (7019, 7027); (7040, 7041); (7074, 7077); (7080, 7081);
   (7083, 7085); (7142, 7142); (7144, 7145); (7149, 7149); (7151, 7153);
   (7212, 7219); (7222, 7223); (7288, 7293); (7376, 7378); (7380, 7392);
   (7394, 7400); (7405, 7405); (7412, 7412); (7416, 7417); (7468, 7530);
   (7544, 7544); (7579, 7679); (8125, 8125); (8127, 8129); (8141, 8143);
   (8157, 8159); (8173, 8175); (8189, 8190); (8203, 8207); (8216, 8217);
   (8228, 8228); (8231, 8231); (8234, 8238); (8288, 8292); (8294, 8303);
   (8305, 8305); (8319, 8319); (8336, 8348); (8400, 8432); (11388, 11389);
   (11503, 11505); (11631, 11631); (11647, 11647); (11744, 11775); (11823, 11823);
   (12293, 12293); (12330, 12333); (12337, 12341); (12347, 12347); (12441, 12446);
   (12540, 12542); (40981, 40981); (42232, 42237); (42508, 42508); (42607, 42610);
   (42612, 42621); (42623, 42623); (42652, 42655); (42736, 42737); (42752, 42785);
   (42864, 42864); (42888, 42890); (42994, 42996); (43000, 43001); (43010, 43010);
   (43014, 43014); (43019, 43019); (43045, 43046); (43052, 43052); (43204, 43205);
   (43232, 43249); (43263, 43263); (43302, 43309); (43335, 43345); (43392, 43394);
   (43443, 43443); (43446, 43449); (43452, 43453); (43471, 43471); (43493, 43494);
   (43561, 43566); (43569, 43570); (43573, 43574); (43587, 43587); (43596, 43596);
   (43632, 43632); (43644, 43644); (43696, 43696); (43698, 43700); (43703, 43704);
   (43710, 43711); (43713, 43713); (43741, 43741); (43756, 43757); (43763, 43764);
   (43766, 43766); (43867, 43871); (43881, 43883); (44005, 44005); (44008, 44008);
   (44013, 44013); (64286, 64286); (64434, 64450); (65024, 65039); (65043, 65043);
   (65056, 65071); (65106, 65106); (65109, 65109); (65279, 65279); (65287, 65287);
   (65294, 65294); (65306, 65306); (65342, 65342); (65344, 65344); (65392, 65392);
   (65438, 65439); (65507, 65507); (65529, 65531); (66045, 66045); (66272, 66272);
   (66422, 66426); (67456, 67461); (67463, 67504); (67506, 67514); (68097, 68099);
   (68101, 68102); (68108, 68111); (68152, 68154); (68159, 68159); (68325, 68326);
   (68900, 68903); (69291, 69292); (69446, 69456); (69506, 69509); (69633, 69633);
   (69688, 69702); (69744, 69744); (69747, 69748); (69759, 69761); (69811, 69814);
   (69817, 69818); (69821, 69821); (69826, 69826); (69837, 69837); (69888, 69890);
   (69927, 69931); (69933, 69940); (70003, 70003); (70016, 70017); (70070, 70078);
   (70089, 70092); (70095, 70095); (70191, 70193); (70196, 70196); (70198, 70199);
   (70206, 70206); (70367, 70367); (70371, 70378); (70400, 70401); (70459, 70460);
   (70464, 70464); (70502, 70508); (70512, 70516); (70712, 70719); (70722, 70724);
   (70726, 70726); (70750, 70750); (70835, 70840); (70842, 70842); (70847, 70848);
   (70850, 70851); (71090, 71093); (71100, 71101); (71103, 71104); (71132, 71133);
   (71219, 71226); (71229, 71229); (71231, 71232); (71339, 71339); (71341, 71341);
   (71344, 71349); (71351, 71351); (71453, 71455); (71458, 71461); (71463, 71467);
   (71727, 71735); (71737, 71738); (71995, 71996); (71998, 71998); (72003, 72003);
   (72148, 72151); (72154, 72155); (72160, 72160); (72193, 72202); (72243, 72248);
   (72251, 72254); (72263, 72263); (72273, 72278); (72281, 72283); (72330, 72342);
   (72344, 72345); (72752, 72758); (72760, 72765); (72767, 72767); (72850, 72871);
   (72874, 72880); (72882, 72883); (72885, 72886); (73009, 73014); (73018, 73018);
   (73020, 73021); (73023, 73029); (73031, 73031); (73104, 73105); (73109, 73109);
   (73111, 73111); (73459, 73460); (78896, 78904); (92912, 92916); (92976, 92982);
   (92992, 92995); (94031, 94031); (94095, 94111); (94176, 94177); (94179, 94180);
   (110576, 110579); (110581, 110587); (110589, 110590); (113821, 113822); (113824, 113827);
   (118528, 118573); (118576, 118598); (119143, 119145); (119155, 119170); (119173, 119179);
   (119210, 119213); (119362, 119364); (121344, 121398); (121403, 121452); (121461, 121461);
   (121476, 121476); (121499, 121503); (121505, 121519); (122880, 122886); (122888, 122904);
   (122907, 122913); (122915, 122916); (122918, 122922); (123184, 123197); (123566, 123566);
   (123628, 123631); (125136, 125142); (125252, 125259); (127995, 127999); (917505, 917505);
   (917536, 917631); (917760, 917999)
  ]%N.

Definition cased_ranges : list (N * N) :=
  [
   (65, 90); (97, 122); (170, 170); (181, 181); (186, 186);
   (192, 214); (216, 246); (248, 442); (444, 447); (452, 659);
   (661, 687); (880, 883); (886, 887); (891, 893); (895, 895);
   (902, 902); (904, 906); (908, 908); (910, 929); (931, 1013);
   (1015, 1153); (1162, 1327); (1329, 1366); (1376, 1416); (4256, 4293);
   (4295, 4295); (4301, 4301); (4304, 4346); (4349, 4351); (5024, 5109);
   (5112, 5117); (7296, 7304); (7312, 7354); (7357, 7359); (7424, 7467);
   (7531, 7543); (7545, 7578); (7680, 7957); (7960, 7965); (7968, 8005);
   (8008, 8013); (8016, 8023); (8025, 8025); (8027, 8027); (8029, 8029);
   (8031, 8061); (8064, 8116); (8118, 8124); (8126, 8126); (8130, 8132);
   (8134, 8140); (8144, 8147); (8150, 8155); (8160, 8172); (8178, 8180);
   (8182, 8188); (8450, 8450); (8455, 8455); (8458, 8467); (8469, 8469);
   (8473, 8477); (8484, 8484); (8486, 8486); (8488, 8488); (8490, 8493);
   (8495, 8500); (8505, 8505); (8508, 8511); (8517, 8521); (8526, 8526);
   (8544, 8575); (8579, 8580); (9398, 9449); (11264, 11387); (11390, 11492);
   (11499, 11502); (11506, 11507); (11520, 11557); (11559, 11559); (11565, 11565);
   (42560, 42605); (42624, 42651); (42786, 42863); (42865, 42887); (42891, 42894);
   (42896, 42954); (42960, 42961); (42963, 42963); (42965, 42969); (42997, 42998);
   (43002, 43002); (43824, 43866); (43872, 43880); (43888, 43967); (64256, 64262);
   (64275, 64279); (65313, 65338); (65345, 65370); (66560, 66639); (66736, 66771);
   (66776, 66811); (66928, 66938); (66940, 66954); (66956, 66962); (66964, 66965);
   (66967, 66977); (66979, 66993); (66995, 67001); (67003, 67004); (68736, 68786);
   (68800, 68850); (71840, 71903); (93760, 93823); (119808, 119892); (119894, 119964);
   (119966, 119967); (119970, 119970); (119973, 119974); (119977, 119980); (119982, 119993);
   (119995, 119995); (119997, 120003); (120005, 120069); (120071, 120074); (120077, 120084);
   (120086, 120092); (120094, 120121); (120123, 120126); (120128, 120132); (120134, 120134);
   (120138, 120144); (120146, 120485); (120488, 120512); (120514, 120538); (120540, 120570);
   (120572, 120596); (120598, 120628); (120630, 120654); (120656, 120686); (120688, 120712);
   (120714, 120744); (120746, 120770); (120772, 120779); (122624, 122633); (122635, 122654);
   (125184, 125251); (127280, 127305); (127312, 127337); (127344, 127369)
  ]%N.

(** One row [(lo, count, step, target)] of the lower-case table: the code
    points [lo], [lo + step], ... ([count] of them) map, in this order, to
    [target], [target + step], ... *)
Definition in_row (row : N * N * N * N) (c : N) : bool :=
  let '(lo, count, step, _) := row in
  ((lo <=? c) && ((c - lo) mod step =? 0) && ((c - lo) / step <? count))%N.

Definition row_image (row : N * N * N * N) (c : N) : N :=
  let '(lo, _, _, target) := row in (target + (c - lo))%N.

Fixpoint lookup_lower (rows : list (N * N * N * N)) (c : N) : N :=
  match rows with
  | [] => c
  | row :: rows' => if in_row row c then row_image row c
                    else lookup_lower rows' c
  end.

(** The lower case of one code point other than U+0130. *)
Definition to_lower (c : N) : N := lookup_lower lower_ranges c.

(** The full lower case of one code point: U+0130, capital I with dot
    above, is the one code point that becomes two. *)
Definition to_lower_full (c : N) : str :=
  if (c =? 304)%N then [105; 775]%N else [to_lower c].

Definition in_ranges (ranges : list (N * N)) (c : N) : bool :=
  existsb (λ '(lo, hi), (lo <=? c) && (c <=? hi))%N ranges.

Definition is_case_ignorable (c : N) : bool :=
  in_ranges case_ignorable_ranges c.

Definition is_cased (c : N) : bool := in_ranges cased_ranges c.

(** Skipping case-ignorable code points, the first other one exists and is
    cased. *)
Fixpoint next_is_cased (s : str) : bool :=
  match s with
  | [] => false
  | c :: s' => if is_case_ignorable c then next_is_cased s' else is_cased c
  end.

(** A capital sigma is final when a cased letter comes before it and none
    comes after it, case-ignorable code points being skipped on both sides;
    [before] is the text before it, nearest code point first. *)
Definition final_sigma (before after : str) : bool :=
  next_is_cased before && negb (next_is_cased after).

(** The lower case of the code point [c] met between [before] (nearest
    first) and [after]: capital sigma, U+03A3, becomes the final small sigma
    U+03C2 or the small sigma U+03C3; every other code point has its full
    lower case. *)
Definition lower_at (before : str) (c : N) (after : str) : str :=
  if (c =? 931)%N
  then [if final_sigma before after then 962 else 963]%N
  else to_lower_full c.

Fixpoint lower_from (before s : str) : str :=
  match s with
  | [] => []
  | c :: after => lower_at before c after ++ lower_from (c :: before) after
  end.

(** [s.lower()]. *)
Definition lower (s : str) : str := lower_from [] s.

(** [needle] is what [hay] starts with. *)
Fixpoint starts_with (needle hay : str) : bool :=
  match needle, hay with
  | [], _ => true
  | _ :: _, [] => false
  | c :: needle', d :: hay' => (c =? d)%N && starts_with needle' hay'
  end.

(** [needle in hay] on two [str]: [needle] occurs in [hay] as a contiguous
    run of code points (the empty string occurs in every string). *)
Fixpoint str_in (needle hay : str) : bool :=
  starts_with needle hay ||
  match hay with
  | [] => false
  | _ :: hay' => str_in needle hay'
  end.

(** ** Schema validation *)

(** [min_length=lo, max_length=hi] on a [str] field. *)
Definition length_between (lo hi : nat) (s : str) : bool :=
  (lo <=? length s)%nat && (length s <=? hi)%nat.

(** The same bound on an [Optional[str]] field: [None] always passes. *)
Definition opt_length_between (lo hi : nat) (o : option str) : bool :=
  match o with
  | None => true
  | Some s => length_between lo hi s
  end.

(** One entry of the error list per refused field. *)
Definition check (field : string) (ok : bool) : list string :=
  if ok then [] else [field].

(** The [Field] declarations of [User]. *)
Definition validate_User (user : User.t) : list string :=
  check "id" (0 <? User.id user) ++
  check "name" (length_between 1 100 (User.name user)) ++
  check "phone_no" (length_between 10 15 (User.phone_no user)) ++
  check "address" (length_between 1 200 (User.address user)).

(** The [Field] declarations of [UserUpdate]. *)
Definition validate_UserUpdate (user_update : UserUpdate.t) : list string :=
  check "name" (opt_length_between 1 100 (UserUpdate.name user_update)) ++
  check "phone_no"
        (opt_length_between 10 15 (UserUpdate.phone_no user_update)) ++
  check "address" (opt_length_between 1 200 (UserUpdate.address user_update)).

(** [name: str = Query(..., min_length=1)]. *)
Definition validate_search_name (name : str) : list string :=
  check "name" (1 <=? length name)%nat.

(** ** Handlers: computations over [users_db] that may raise *)

Definition Handler (A : Type) : Type :=
  Store → (HTTPException + A) * Store.

#[global] Instance Handler_ret : MRet Handler :=
  λ A (x : A) users_db, (inr x, users_db).

#[global] Instance Handler_bind : MBind Handler :=
  λ A B (f : A → Handler B) (m : Handler A) users_db,
    match m users_db with
    | (inl e, users_db') => (inl e, users_db')
    | (inr x, users_db') => f x users_db'
    end.

(** Raising leaves the dictionary as it is at that point. *)
Definition raise {A : Type} (e : HTTPException) : Handler A :=
  λ users_db, (inl e, users_db).

(** Reading the global. *)
Definition read_db : Handler Store :=
  λ users_db, (inr users_db, users_db).

(** [users_db[key] = user]. *)
Definition db_setitem (key : Z) (user : User.t) : Handler unit :=
  λ users_db, (inr tt, <[key := user]> users_db).

(** [del users_db[key]]. *)
Definition db_delitem (key : Z) : Handler unit :=
  λ users_db, (inr tt, delete key users_db).

(** [async def create_user(user: User)]. *)
Definition create_user (user : User.t) : Handler string :=
  users_db ← read_db;
  match users_db !! User.id user with
  | Some _ =>
      raise (mkHTTPException 400 "User with this ID already exists")
  | None =>
      db_setitem (User.id user) user;;
      mret "User created successfully"
  end.

(** The test of the comprehension in [search_users_by_name]. *)
Definition name_matches (name : str) (user : User.t) : bool :=
  str_in (lower name) (lower (User.name user)).

(** [users_db.values()]: the stored records, one per key.  The model lists
    them by key; the dictionary lists them in insertion order. *)
Definition db_values (users_db : Store) : list User.t :=
  (map_to_list users_db).*2.

(** [async def search_users_by_name(name: str = Query(...))]. *)
Definition search_users_by_name (name : str) : Handler (list User.t) :=
  users_db ← read_db;
  let matching_users := filter (λ user, name_matches name user = true)
                               (db_values users_db) in
  mret matching_users.

(** [async def get_user_by_id(id: int)]. *)
Definition get_user_by_id (id : Z) : Handler User.t :=
  users_db ← read_db;
  match users_db !! id with
  | None => raise (mkHTTPException 404 "User not found")
  | Some user => mret user
  end.

(** The three conditional assignments of [update_user]. *)
Definition apply_update (user_update : UserUpdate.t) (updated_user : User.t)
  : User.t :=
  let updated_user :=
    match UserUpdate.name user_update with
    | Some name =>
        User.mk (User.id updated_user) name
                (User.phone_no updated_user) (User.address updated_user)
    | None => updated_user
    end in
  let updated_user :=
    match UserUpdate.phone_no user_update with
    | Some phone_no =>
        User.mk (User.id updated_user) (User.name updated_user)
                phone_no (User.address updated_user)
    | None => updated_user
    end in
  let updated_user :=
    match UserUpdate.address user_update with
    | Some address =>
        User.mk (User.id updated_user) (User.name updated_user)
                (User.phone_no updated_user) address
    | None => updated_user
    end in
  updated_user.

(** [async def update_user(id: int, user_update: UserUpdate)]. *)
Definition update_user (id : Z) (user_update : UserUpdate.t) : Handler string :=
  users_db ← read_db;
  match users_db !! id with
  | None => raise (mkHTTPException 404 "User not found")
  | Some updated_user =>
      db_setitem id (apply_update user_update updated_user);;
      mret "User updated successfully"
  end.

(** [async def delete_user(id: int)]. *)
Definition delete_user (id : Z) : Handler string :=
  users_db ← read_db;
  match users_db !! id with
  | None => raise (mkHTTPException 404 "User not found")
  | Some _ =>
      db_delitem id;;
      mret "User deleted successfully"
  end.

(** [async def root()]. *)
Definition root : Handler string :=
  mret "Welcome to the User Management API! Access the docs at /docs.".

(** ** Routes: the decorators and the parameter declarations *)

(** What the framework sends for a handler run: the decorator's
    [status_code] with the returned value, or the status and detail of the
    [HTTPException] that the handler raised. *)
Definition respond {A : Type} (status : Z) (to_body : A → Body)
    (handler : Handler A) (users_db : Store) : Response * Store :=
  match handler users_db with
  | (inl e, users_db') =>
      (mkResponse (exc_status_code e) (BDetail (exc_detail e)), users_db')
  | (inr x, users_db') => (mkResponse status (to_body x), users_db')
  end.

(** A request refused by the schema never reaches the handler. *)
Definition unprocessable (fields : list string) (users_db : Store)
  : Response * Store :=
  (mkResponse 422 (BInvalid fields), users_db).

(** [@app.post("/users/", response_model=dict, status_code=201)]. *)
Definition post_users (user : User.t) (users_db : Store) : Response * Store :=
  match validate_User user with
  | [] => respond 201 BMessage (create_user user) users_db
  | fields => unprocessable fields users_db
  end.

(** [@app.get("/users/search", response_model=List[User], status_code=200)]. *)
Definition get_users_search (name : str) (users_db : Store)
  : Response * Store :=
  match validate_search_name name with
  | [] => respond 200 BUsers (search_users_by_name name) users_db
  | fields => unprocessable fields users_db
  end.

(** [@app.get("/users/{id}", response_model=User, status_code=200)]:
    the path parameter is declared [id: int], with no bound. *)
Definition get_users_id (id : Z) (users_db : Store) : Response * Store :=
  respond 200 BUser (get_user_by_id id) users_db.

(** [@app.put("/users/{id}", response_model=dict, status_code=200)]. *)
Definition put_users_id (id : Z) (user_update : UserUpdate.t)
    (users_db : Store) : Response * Store :=
  match validate_UserUpdate user_update with
  | [] => respond 200 BMessage (update_user id user_update) users_db
  | fields => unprocessable fields users_db
  end.

(** [@app.delete("/users/{id}", response_model=dict, status_code=200)]. *)
Definition delete_users_id (id : Z) (users_db : Store) : Response * Store :=
  respond 200 BMessage (delete_user id) users_db.

(** [@app.get("/", status_code=200)]. *)
Definition get_root (users_db : Store) : Response * Store :=
  respond 200 BMessage root users_db.

(** The requests the application serves, and a run of the service from a
    given dictionary. *)
Inductive Request : Type :=
| PostUsers (user : User.t)
| GetUsersSearch (name : str)
| GetUsersId (id : Z)
| PutUsersId (id : Z) (user_update : UserUpdate.t)
| DeleteUsersId (id : Z)
| GetRoot.

Definition app (request : Request) (users_db : Store) : Response * Store :=
  match request with
  | PostUsers user => post_users user users_db
  | GetUsersSearch name => get_users_search name users_db
  | GetUsersId id => get_users_id id users_db
  | PutUsersId id user_update => put_users_id id user_update users_db
  | DeleteUsersId id => delete_users_id id users_db
  | GetRoot => get_root users_db
  end.

Fixpoint serve (requests : list Request) (users_db : Store) : Store :=
  match requests with
  | [] => users_db
  | request :: requests' => serve requests' (app request users_db).2
  end.

(** ** Predicates of the specification *)

(** The field constraints of a user record. *)
Definition valid_user (user : User.t) : Prop :=
  0 < User.id user ∧
  (1 ≤ length (User.name user) ≤ 100)%nat ∧
  (10 ≤ length (User.phone_no user) ≤ 15)%nat ∧
  (1 ≤ length (User.address user) ≤ 200)%nat.

(** The two fixed error answers. *)
Definition not_found : Response :=
  mkResponse 404 (BDetail "User not found").

Definition already_exists : Response :=
  mkResponse 400 (BDetail "User with this ID already exists").

(** A small example record, the one of the schema's documentation. *)
Definition john : User.t :=
  User.mk 1 (text "John Doe") (text "1234567890") (text "123 Main St").

(** The constraints an update body must meet: each supplied field obeys the
    bound of the same field of a user record. *)
Definition valid_update (user_update : UserUpdate.t) : Prop :=
  (∀ name, UserUpdate.name user_update = Some name →
     (1 ≤ length name ≤ 100)%nat) ∧
  (∀ phone_no, UserUpdate.phone_no user_update = Some phone_no →
     (10 ≤ length phone_no ≤ 15)%nat) ∧
  (∀ address, UserUpdate.address user_update = Some address →
     (1 ≤ length address ≤ 200)%nat).

(** Some field of a create request is outside its bound. *)
Definition violates_constraint (user : User.t) : Prop :=
  User.id user ≤ 0 ∨
  length (User.name user) = 0%nat ∨
  (100 < length (User.name user))%nat ∨
  (length (User.phone_no user) < 10)%nat ∨
  (15 < length (User.phone_no user))%nat ∨
  length (User.address user) = 0%nat ∨
  (200 < length (User.address user))%nat.

(** The store invariant: every stored record meets the field constraints and
    is stored under its own id. *)
Definition store_ok (users_db : Store) : Prop :=
  ∀ key user, users_db !! key = Some user →
    valid_user user ∧ User.id user = key.

(** No two stored records carry the same id. *)
Definition one_record_per_id (users_db : Store) : Prop :=
  ∀ key1 key2 user1 user2,
    users_db !! key1 = Some user1 → users_db !! key2 = Some user2 →
    User.id user1 = User.id user2 → key1 = key2 ∧ user1 = user2.

(** A code point whose lower case is itself and that no rule of [lower_at]
    treats apart. *)
Definition settled (c : N) : bool :=
  negb (c =? 931)%N && negb (c =? 304)%N && (to_lower c =? c)%N.

(** The code points of one row of the table. *)
Definition row_elems (row : N * N * N * N) : list N :=
  let '(lo, count, step, _) := row in
  (λ k, lo + N.of_nat k * step)%N <$> seq 0 (N.to_nat count).

(** The lower case of an ASCII code point: A..Z move up by 32. *)
Definition ascii_lower (c : N) : N :=
  if ((65 <=? c) && (c <=? 90))%N then (c + 32)%N else c.

Definition is_ascii (c : N) : Prop := (c < 128)%N.

(** Two code points that are the same ASCII letter in either case, or the
    same code point. *)
Definition same_letter (c d : N) : Prop :=
  c = d ∨
  ((65 ≤ c ≤ 90)%N ∧ d = (c + 32)%N) ∨
  ((65 ≤ d ≤ 90)%N ∧ c = (d + 32)%N).

(** [s] occurs in [t] as a contiguous run of code points. *)
Definition occurs_in (s t : str) : Prop :=
  ∃ before after, t = before ++ s ++ after.

(** [query] occurs in [name] when the case of ASCII letters is ignored: some
    contiguous run of [name] equals [query] letter by letter up to case. *)
Definition occurs_ignoring_ascii_case (query name : str) : Prop :=
  ∃ before run after,
    name = before ++ run ++ after ∧ Forall2 same_letter run query.

(** The answer of a lookup of [id] that is found or not. *)
Definition lookup_response (id : Z) (users_db : Store) : Response :=
  match users_db !! id with
  | Some user => mkResponse 200 (BUser user)
  | None => not_found
  end.

(** The update body that supplies no field. *)
Definition empty_update : UserUpdate.t := UserUpdate.mk None None None.

(** Some supplied field of an update body is outside its bound. *)
Definition violates_update_constraint (user_update : UserUpdate.t) : Prop :=
  (∃ name, UserUpdate.name user_update = Some name ∧
     (length name = 0%nat ∨ (100 < length name)%nat)) ∨
  (∃ phone_no, UserUpdate.phone_no user_update = Some phone_no ∧
     ((length phone_no < 10)%nat ∨
      (15 < length phone_no)%nat)) ∨
  (∃ address, UserUpdate.address user_update = Some address ∧
     (length address = 0%nat ∨ (200 < length address)%nat)).

(** The answers that report a failure: the statuses from 400 up. *)
Definition is_failure (response : Response) : Prop :=
  400 ≤ status_code response.

(** One update body that stands for two in a row: a field supplied by the
    second body wins, a field it omits is taken from the first. *)
Definition merge_update (first second : UserUpdate.t) : UserUpdate.t :=
  UserUpdate.mk
    (match UserUpdate.name second with
     | Some name => Some name
     | None => UserUpdate.name first
     end)
    (match UserUpdate.phone_no second with
     | Some phone_no => Some phone_no
     | None => UserUpdate.phone_no first
     end)
    (match UserUpdate.address second with
     | Some address => Some address
     | None => UserUpdate.address first
     end).

(** The user objects carried by an answer (none unless it is a list). *)
Definition users_of (response : Response) : list User.t :=
  match body response with
  | BUsers users => users
  | _ => []
  end.

(** The requests that can write to the record stored under [id]: an update
    or a delete of that id. *)
Definition writes_to (id : Z) (request : Request) : Prop :=
  match request with
  | PutUsersId id' _ | DeleteUsersId id' => id' = id
  | _ => False
  end.

(** The create requests of a run. *)
Definition is_create (request : Request) : bool :=
  match request with
  | PostUsers _ => true
  | _ => false
  end.

Definition count_creates (requests : list Request) : nat :=
  length (List.filter is_create requests).

(** Further example values. *)
Definition ann : User.t :=
  User.mk 2 (text "Ann") (text "0123456789") (text "Elm").

Definition jane_doe : User.t :=
  User.mk 2 (text "Jane Doe") (text "0123456789") (text "5 High St").

Definition first_update : UserUpdate.t :=
  UserUpdate.mk (Some (text "J. Doe")) (Some (text "00000000000")) None.

Definition second_update : UserUpdate.t :=
  UserUpdate.mk (Some (text "Jane Doe")) None (Some (text "9 Elm Rd")).

Definition new_phone : UserUpdate.t :=
  UserUpdate.mk None (Some (text "5550001111")) None.

(** ** Validation lemmas *)

Lemma check_nil field ok : check field ok = [] ↔ ok = true.
Proof. destruct ok; simpl; split; congruence. Qed.

Lemma length_between_spec lo hi s :
  length_between lo hi s = true ↔ (lo ≤ length s ≤ hi)%nat.
Proof.
  unfold length_between.
  rewrite andb_true_iff, !Nat.leb_le. tauto.
Qed.

Lemma validate_User_nil user : validate_User user = [] ↔ valid_user user.
Proof.
  unfold validate_User, valid_user.
  rewrite !app_nil, !check_nil, Z.ltb_lt, !length_between_spec. tauto.
Qed.

Lemma post_users_valid user users_db :
  valid_user user →
  post_users user users_db = respond 201 BMessage (create_user user) users_db.
Proof.
  intros Hv. apply validate_User_nil in Hv.
  unfold post_users. by rewrite Hv.
Qed.

Lemma post_users_invalid user users_db :
  validate_User user ≠ [] →
  post_users user users_db = unprocessable (validate_User user) users_db.
Proof.
  intros Hv. unfold post_users. by destruct (validate_User user).
Qed.

Lemma opt_length_between_spec lo hi o :
  opt_length_between lo hi o = true ↔
  ∀ s, o = Some s → (lo ≤ length s ≤ hi)%nat.
Proof.
  destruct o as [s|]; simpl.
  - rewrite length_between_spec. split.
    + intros H s' [= <-]. exact H.
    + intros H. by apply H.
  - split; [intros _ s' [=] | done].
Qed.

Lemma validate_UserUpdate_nil user_update :
  validate_UserUpdate user_update = [] ↔ valid_update user_update.
Proof.
  unfold validate_UserUpdate, valid_update.
  rewrite !app_nil, !check_nil, !opt_length_between_spec. tauto.
Qed.

Lemma put_users_id_valid id user_update users_db :
  valid_update user_update →
  put_users_id id user_update users_db =
  respond 200 BMessage (update_user id user_update) users_db.
Proof.
  intros Hv. apply validate_UserUpdate_nil in Hv.
  unfold put_users_id. by rewrite Hv.
Qed.

Lemma put_users_id_invalid id user_update users_db :
  validate_UserUpdate user_update ≠ [] →
  put_users_id id user_update users_db =
  unprocessable (validate_UserUpdate user_update) users_db.
Proof.
  intros Hv. unfold put_users_id. by destruct (validate_UserUpdate user_update).
Qed.

(** ** The handlers, run from a given dictionary *)

Lemma create_user_absent user users_db :
  users_db !! User.id user = None →
  create_user user users_db =
  (inr "User created successfully", <[User.id user := user]> users_db).
Proof.
  intros Hk. unfold create_user, mbind, Handler_bind, read_db. by rewrite Hk.
Qed.

Lemma create_user_present user users_db :
  is_Some (users_db !! User.id user) →
  create_user user users_db =
  (inl (mkHTTPException 400 "User with this ID already exists"), users_db).
Proof.
  intros [old Hk]. unfold create_user, mbind, Handler_bind, read_db.
  by rewrite Hk.
Qed.

Lemma get_user_by_id_run id users_db :
  get_user_by_id id users_db =
  (match users_db !! id with
   | Some user => inr user
   | None => inl (mkHTTPException 404 "User not found")
   end, users_db).
Proof.
  unfold get_user_by_id, mbind, Handler_bind, read_db.
  by destruct (users_db !! id).
Qed.

Lemma update_user_run id user_update users_db :
  update_user id user_update users_db =
  match users_db !! id with
  | Some user =>
      (inr "User updated successfully",
       <[id := apply_update user_update user]> users_db)
  | None => (inl (mkHTTPException 404 "User not found"), users_db)
  end.
Proof.
  unfold update_user, mbind, Handler_bind, read_db.
  by destruct (users_db !! id).
Qed.

Lemma delete_user_run id users_db :
  delete_user id users_db =
  match users_db !! id with
  | Some _ => (inr "User deleted successfully", delete id users_db)
  | None => (inl (mkHTTPException 404 "User not found"), users_db)
  end.
Proof.
  unfold delete_user, mbind, Handler_bind, read_db.
  by destruct (users_db !! id).
Qed.

Lemma get_users_id_run id users_db :
  get_users_id id users_db = (lookup_response id users_db, users_db).
Proof.
  unfold get_users_id, respond, lookup_response.
  rewrite get_user_by_id_run. by destruct (users_db !! id).
Qed.

(** ** Create and read back *)

(** C1: for every valid user record [r] whose id is not yet a key of the
    store, creating [r] answers 201 and a following get-by-id with [r]'s id
    answers 200 with [r] itself, equal in all four fields. *)
Theorem create_then_get (r : User.t) (users_db : Store) :
  valid_user r →
  users_db !! User.id r = None →
  post_users r users_db =
    (mkResponse 201 (BMessage "User created successfully"),
     <[User.id r := r]> users_db) ∧
  get_users_id (User.id r) (post_users r users_db).2 =
    (mkResponse 200 (BUser r), (post_users r users_db).2).
Proof.
  intros Hv Hk.
  assert (post_users r users_db =
            (mkResponse 201 (BMessage "User created successfully"),
             <[User.id r := r]> users_db)) as ->.
  { rewrite post_users_valid by done.
    unfold respond. by rewrite create_user_absent. }
  split; [done|]. simpl.
  rewrite get_users_id_run. unfold lookup_response.
  by rewrite lookup_insert_eq.
Qed.

Lemma create_then_get_witness :
  post_users john ∅ =
    (mkResponse 201 (BMessage "User created successfully"),
     <[User.id john := john]> ∅) ∧
  get_users_id (User.id john) (post_users john ∅).2 =
    (mkResponse 200 (BUser john), (post_users john ∅).2).
Proof.
  apply (create_then_get john ∅).
  - unfold valid_user; simpl; lia.
  - reflexivity.
Defined.

(** C2: for every store and every valid record [r] whose id is already a
    key, create answers 400 with detail "User with this ID already exists"
    and leaves the store as it was; the record stored under that id is the
    one that was there before. *)
Theorem create_duplicate (r : User.t) (users_db : Store) :
  valid_user r →
  is_Some (users_db !! User.id r) →
  post_users r users_db = (already_exists, users_db) ∧
  (post_users r users_db).2 !! User.id r = users_db !! User.id r.
Proof.
  intros Hv Hk.
  assert (post_users r users_db = (already_exists, users_db)) as ->; [|done].
  rewrite post_users_valid by done.
  unfold respond. by rewrite create_user_present.
Qed.

Lemma create_duplicate_witness :
  post_users john {[1 := john]} = (already_exists, {[1 := john]}) ∧
  (post_users john {[1 := john]}).2 !! User.id john =
    ({[1 := john]} : Store) !! User.id john.
Proof.
  apply (create_duplicate john {[1 := john]}).
  - unfold valid_user; simpl; lia.
  - exists john. reflexivity.
Defined.

(** ** Delete *)

(** C4: for every store and every id that is a key of it, delete answers
    200 and a following get-by-id with the same id answers 404 with detail
    "User not found". *)
Theorem delete_then_get (id : Z) (users_db : Store) :
  is_Some (users_db !! id) →
  delete_users_id id users_db =
    (mkResponse 200 (BMessage "User deleted successfully"),
     delete id users_db) ∧
  get_users_id id (delete_users_id id users_db).2 =
    (not_found, (delete_users_id id users_db).2).
Proof.
  intros [user Hk].
  assert (delete_users_id id users_db =
            (mkResponse 200 (BMessage "User deleted successfully"),
             delete id users_db)) as ->.
  { unfold delete_users_id, respond. by rewrite delete_user_run, Hk. }
  split; [done|]. simpl.
  rewrite get_users_id_run. unfold lookup_response.
  by rewrite lookup_delete_eq.
Qed.

Lemma delete_then_get_witness :
  delete_users_id 1 {[1 := john]} =
    (mkResponse 200 (BMessage "User deleted successfully"),
     delete 1 {[1 := john]}) ∧
  get_users_id 1 (delete_users_id 1 {[1 := john]}).2 =
    (not_found, (delete_users_id 1 {[1 := john]}).2).
Proof.
  apply (delete_then_get 1 {[1 := john]}).
  exists john. reflexivity.
Defined.

(** ** Not found *)

(** C6: for every store and every integer id, each of get-by-id, update (run
    on any update body the schema let through) and delete answers 404 with
    detail "User not found" exactly when the id is not a key of the store,
    and an operation that answers so leaves the store as it was.  For a body
    within the bounds of the update schema the update route is that run of
    the handler. *)
Theorem not_found_iff_absent (id : Z) (user_update : UserUpdate.t)
    (users_db : Store) :
  let got := get_users_id id users_db in
  let updated := respond 200 BMessage (update_user id user_update) users_db in
  let deleted := delete_users_id id users_db in
  ((got.1 = not_found ↔ users_db !! id = None) ∧
   (updated.1 = not_found ↔ users_db !! id = None) ∧
   (deleted.1 = not_found ↔ users_db !! id = None)) ∧
  ((status_code got.1 = 404 ↔ users_db !! id = None) ∧
   (status_code updated.1 = 404 ↔ users_db !! id = None) ∧
   (status_code deleted.1 = 404 ↔ users_db !! id = None)) ∧
  (users_db !! id = None →
   got.2 = users_db ∧ updated.2 = users_db ∧ deleted.2 = users_db) ∧
  (valid_update user_update →
   put_users_id id user_update users_db = updated).
Proof.
  split; [|split; [|split]]; [| | |by apply put_users_id_valid];
    unfold get_users_id, delete_users_id, respond; simpl;
    rewrite get_user_by_id_run, update_user_run, delete_user_run;
    unfold not_found;
    destruct (users_db !! id) as [user|]; simpl;
    repeat split; try done; intros [=]; done.
Qed.

Lemma not_found_iff_absent_witness :
  ((get_users_id 2 {[1 := john]}).2 = {[1 := john]} ∧
   (respond 200 BMessage (update_user 2 empty_update) {[1 := john]}).2 =
     {[1 := john]} ∧
   (delete_users_id 2 {[1 := john]}).2 = {[1 := john]}) ∧
  put_users_id 2 empty_update {[1 := john]} =
    respond 200 BMessage (update_user 2 empty_update) {[1 := john]}.
Proof.
  pose proof (not_found_iff_absent 2 empty_update {[1 := john]})
    as (_ & _ & Habsent & Hroute).
  split.
  - apply Habsent. reflexivity.
  - apply Hroute. unfold valid_update; simpl. repeat split; discriminate.
Defined.

(** ** Update *)

Lemma apply_update_fields user_update user :
  User.id (apply_update user_update user) = User.id user ∧
  User.name (apply_update user_update user) =
    default (User.name user) (UserUpdate.name user_update) ∧
  User.phone_no (apply_update user_update user) =
    default (User.phone_no user) (UserUpdate.phone_no user_update) ∧
  User.address (apply_update user_update user) =
    default (User.address user) (UserUpdate.address user_update).
Proof.
  destruct user_update as [[name|] [phone_no|] [address|]]; by destruct user.
Qed.

Lemma put_users_id_ok id user_update users_db :
  status_code (put_users_id id user_update users_db).1 = 200 →
  validate_UserUpdate user_update = [] ∧ is_Some (users_db !! id).
Proof.
  unfold put_users_id.
  destruct (validate_UserUpdate user_update) as [|field fields]; [|done].
  unfold respond. rewrite update_user_run.
  destruct (users_db !! id) as [user|]; [by eauto | done].
Qed.

(** C3: for every record stored under [id] and every update body, a
    successful update (answer 200) sets each supplied field to the supplied
    value, keeps each omitted field and the record's id as they were, and
    leaves the record of every other key unchanged. *)
Theorem update_frame (id : Z) (user : User.t) (user_update : UserUpdate.t)
    (users_db : Store) :
  users_db !! id = Some user →
  status_code (put_users_id id user_update users_db).1 = 200 →
  ∃ updated_user,
    (put_users_id id user_update users_db).2 !! id = Some updated_user ∧
    User.id updated_user = User.id user ∧
    User.name updated_user =
      match UserUpdate.name user_update with
      | Some name => name
      | None => User.name user
      end ∧
    User.phone_no updated_user =
      match UserUpdate.phone_no user_update with
      | Some phone_no => phone_no
      | None => User.phone_no user
      end ∧
    User.address updated_user =
      match UserUpdate.address user_update with
      | Some address => address
      | None => User.address user
      end ∧
    ∀ key, key ≠ id →
      (put_users_id id user_update users_db).2 !! key = users_db !! key.
Proof.
  intros Hk Hok. apply put_users_id_ok in Hok as [Hv _].
  unfold put_users_id. rewrite Hv. unfold respond.
  rewrite update_user_run, Hk. simpl.
  exists (apply_update user_update user).
  rewrite lookup_insert_eq.
  destruct (apply_update_fields user_update user) as (Hi & Hn & Hp & Ha).
  rewrite Hi, Hn, Hp, Ha.
  repeat split; try by destruct user_update as [[?|] [?|] [?|]].
  intros key Hne. by rewrite lookup_insert_ne.
Qed.

Lemma update_frame_witness :
  ∃ updated_user,
    (put_users_id 1 (UserUpdate.mk (Some (text "Jane Doe")) None None)
       {[1 := john]}).2 !! 1 = Some updated_user ∧
    User.id updated_user = 1 ∧
    User.name updated_user = text "Jane Doe" ∧
    User.phone_no updated_user = text "1234567890" ∧
    User.address updated_user = text "123 Main St" ∧
    ∀ key, key ≠ 1 →
      (put_users_id 1 (UserUpdate.mk (Some (text "Jane Doe")) None None)
         {[1 := john]}).2 !! key = ({[1 := john]} : Store) !! key.
Proof.
  apply (update_frame 1 john
           (UserUpdate.mk (Some (text "Jane Doe")) None None)
           {[1 := john]}).
  - reflexivity.
  - reflexivity.
Defined.

(** C10: for every id that is a key of the store, the update whose body
    supplies none of the three fields answers 200 with the message "User
    updated successfully" and leaves the store, hence the stored record in
    every field, as it was. *)
Theorem empty_update_noop (id : Z) (user : User.t) (users_db : Store) :
  users_db !! id = Some user →
  put_users_id id empty_update users_db =
    (mkResponse 200 (BMessage "User updated successfully"), users_db) ∧
  (put_users_id id empty_update users_db).2 !! id = Some user.
Proof.
  intros Hk.
  assert (put_users_id id empty_update users_db =
            (mkResponse 200 (BMessage "User updated successfully"), users_db))
    as ->; [|done].
  unfold put_users_id; simpl. unfold respond.
  rewrite update_user_run, Hk. simpl.
  by rewrite insert_id.
Qed.

Lemma empty_update_noop_witness :
  put_users_id 1 empty_update {[1 := john]} =
    (mkResponse 200 (BMessage "User updated successfully"), {[1 := john]}) ∧
  (put_users_id 1 empty_update {[1 := john]}).2 !! 1 = Some john.
Proof.
  apply (empty_update_noop 1 john {[1 := john]}).
  reflexivity.
Defined.

(** ** Schema validation of a create request *)

Lemma violates_constraint_iff user :
  violates_constraint user ↔ ¬ valid_user user.
Proof. unfold violates_constraint, valid_user. lia. Qed.

Lemma post_users_status user users_db :
  status_code (post_users user users_db).1 = 422 ↔ validate_User user ≠ [].
Proof.
  unfold post_users.
  destruct (validate_User user) as [|field fields] eqn:Hv; simpl.
  - unfold respond, create_user, mbind, Handler_bind, read_db.
    destruct (users_db !! User.id user); simpl; split; done.
  - split; done.
Qed.

(** C7: a create request is answered 422 exactly when some field is outside
    its bound (id not positive, name empty or longer than 100, phone_no
    shorter than 10 or longer than 15, address empty or longer than 200);
    the 422 answer lists the refused fields, is given without running the
    handler and leaves the store as it was; a request within all bounds is
    never answered 422. *)
Theorem create_validation (user : User.t) (users_db : Store) :
  (status_code (post_users user users_db).1 = 422 ↔
   violates_constraint user) ∧
  (violates_constraint user →
   post_users user users_db =
     (mkResponse 422 (BInvalid (validate_User user)), users_db) ∧
   validate_User user ≠ []) ∧
  (valid_user user →
   status_code (post_users user users_db).1 ≠ 422 ∧
   post_users user users_db =
     respond 201 BMessage (create_user user) users_db).
Proof.
  rewrite post_users_status, violates_constraint_iff, <- validate_User_nil.
  split; [done|]. split.
  - intros Hv. split; [|done]. by apply post_users_invalid.
  - intros Hv. split; [by intros []|].
    apply post_users_valid. by apply validate_User_nil.
Qed.

Lemma create_validation_witness :
  (post_users (User.mk 0 (text "John Doe") (text "12345") []) ∅ =
     (mkResponse 422 (BInvalid ["id"; "phone_no"; "address"]), ∅)) ∧
  status_code (post_users john ∅).1 ≠ 422.
Proof.
  split.
  - apply (create_validation
             (User.mk 0 (text "John Doe") (text "12345") []) ∅).
    left. simpl. lia.
  - apply (create_validation john ∅).
    unfold valid_user; simpl; lia.
Defined.

(** ** The path parameter of get-by-id *)

(** C8, as the specification words it, fails: the id 0 is not positive, and
    get-by-id looks it up like any other id and answers 404 "User not
    found"; nothing is answered 422. *)
Lemma get_nonpositive_id_is_looked_up :
  get_users_id 0 ∅ = (not_found, ∅) ∧
  ¬ (∀ (id : Z) (users_db : Store),
       id ≤ 0 → status_code (get_users_id id users_db).1 = 422).
Proof.
  split; [reflexivity|].
  intros H. specialize (H 0 ∅). by compute in H; specialize (H ltac:(done)).
Qed.

(** C8, amended: get-by-id puts no bound on its id.  Every integer id,
    positive or not, is looked up in the store: the answer is 200 with the
    record stored under it, or 404 "User not found", and never 422.  On a
    store that satisfies the store invariant an id that is not positive is
    not a key, so the answer is the 404. *)
Theorem get_by_id_any_integer (id : Z) (users_db : Store) :
  get_users_id id users_db = (lookup_response id users_db, users_db) ∧
  status_code (get_users_id id users_db).1 ≠ 422 ∧
  (id ≤ 0 → store_ok users_db →
   get_users_id id users_db = (not_found, users_db)).
Proof.
  rewrite get_users_id_run. split; [done|]. split.
  - unfold lookup_response. by destruct (users_db !! id).
  - intros Hid Hok. unfold lookup_response.
    destruct (users_db !! id) as [user|] eqn:Hk; [|done].
    destruct (Hok _ _ Hk) as [(Hpos & _) Hkey]. lia.
Qed.

Lemma get_by_id_any_integer_witness :
  get_users_id 0 ∅ = (not_found, ∅).
Proof.
  apply (get_by_id_any_integer 0 ∅).
  - lia.
  - intros key user Hk. rewrite lookup_empty in Hk. discriminate Hk.
Defined.

(** ** The store invariant *)

Lemma store_ok_empty : store_ok ∅.
Proof. intros key user Hk. by rewrite lookup_empty in Hk. Qed.

Lemma store_ok_insert key user users_db :
  valid_user user → User.id user = key →
  store_ok users_db → store_ok (<[key := user]> users_db).
Proof.
  intros Hv Hid Hok key' user' Hk.
  destruct (decide (key = key')) as [<-|Hne].
  - rewrite lookup_insert_eq in Hk. by injection Hk as <-.
  - rewrite lookup_insert_ne in Hk by done. by apply Hok.
Qed.

Lemma store_ok_delete key users_db :
  store_ok users_db → store_ok (delete key users_db).
Proof.
  intros Hok key' user' Hk.
  apply lookup_delete_Some in Hk as [_ Hk]. by apply Hok.
Qed.

Lemma store_ok_one_record_per_id users_db :
  store_ok users_db → one_record_per_id users_db.
Proof.
  intros Hok key1 key2 user1 user2 Hk1 Hk2 Hid.
  destruct (Hok _ _ Hk1) as [_ <-]. destruct (Hok _ _ Hk2) as [_ <-].
  split; [done|]. rewrite Hid in Hk1. congruence.
Qed.

Lemma apply_update_valid user_update user :
  valid_update user_update → valid_user user →
  valid_user (apply_update user_update user).
Proof.
  intros (Hn & Hp & Ha) (Hid & Hname & Hphone & Haddr).
  unfold valid_user.
  destruct (apply_update_fields user_update user) as (-> & -> & -> & ->).
  split; [done|].
  destruct user_update as [[name|] [phone_no|] [address|]]; simpl in *;
    (split; [|split]); first [ done | by apply Hn | by apply Hp | by apply Ha ].
Qed.

Section Preservation.
Variable users_db : Store.
Hypothesis Hok : store_ok users_db.

Lemma post_users_preserves user : store_ok (post_users user users_db).2.
Proof using Hok.
  unfold post_users.
  destruct (validate_User user) as [|field fields] eqn:Hv; [|done].
  apply validate_User_nil in Hv.
  unfold respond, create_user, mbind, Handler_bind, read_db.
  destruct (users_db !! User.id user); simpl; [done|].
  by apply store_ok_insert.
Qed.

Lemma get_users_search_preserves name :
  store_ok (get_users_search name users_db).2.
Proof using Hok.
  unfold get_users_search. by destruct (validate_search_name name).
Qed.

Lemma get_users_id_preserves id : store_ok (get_users_id id users_db).2.
Proof using Hok. by rewrite get_users_id_run. Qed.

Lemma put_users_id_preserves id user_update :
  store_ok (put_users_id id user_update users_db).2.
Proof using Hok.
  unfold put_users_id.
  destruct (validate_UserUpdate user_update) as [|field fields] eqn:Hv;
    [|done].
  apply validate_UserUpdate_nil in Hv.
  unfold respond. rewrite update_user_run.
  destruct (users_db !! id) as [user|] eqn:Hk; simpl; [|done].
  destruct (Hok _ _ Hk) as [Hvalid Hid].
  apply store_ok_insert; [by apply apply_update_valid| |done].
  by destruct (apply_update_fields user_update user) as (-> & _).
Qed.

Lemma delete_users_id_preserves id :
  store_ok (delete_users_id id users_db).2.
Proof using Hok.
  unfold delete_users_id, respond. rewrite delete_user_run.
  destruct (users_db !! id); simpl; [|done].
  by apply store_ok_delete.
Qed.

Lemma app_preserves request : store_ok (app request users_db).2.
Proof using Hok.
  destruct request; simpl.
  - apply post_users_preserves.
  - apply get_users_search_preserves.
  - apply get_users_id_preserves.
  - apply put_users_id_preserves.
  - apply delete_users_id_preserves.
  - done.
Qed.
End Preservation.

Lemma serve_preserves requests : ∀ users_db,
  store_ok users_db → store_ok (serve requests users_db).
Proof.
  induction requests as [|request requests IH]; intros users_db Hok; [done|].
  simpl. apply IH. by apply app_preserves.
Qed.

(** C9: after any sequence of requests served from the empty store, every
    stored record meets the field constraints (id > 0, name length 1-100,
    phone_no length 10-15, address length 1-200) and is stored under its own
    id, so that no two stored records carry the same id. *)
Theorem store_invariant (requests : list Request) :
  store_ok (serve requests ∅) ∧ one_record_per_id (serve requests ∅).
Proof.
  assert (store_ok (serve requests ∅)) as Hok
    by (apply serve_preserves, store_ok_empty).
  split; [done|]. by apply store_ok_one_record_per_id.
Qed.

Lemma store_invariant_witness :
  store_ok
    (serve [PostUsers john;
            PutUsersId 1 (UserUpdate.mk (Some (text "Jane Doe")) None None);
            PostUsers (User.mk 0 [] [] [])] ∅).
Proof.
  apply (store_invariant
           [PostUsers john;
            PutUsersId 1 (UserUpdate.mk (Some (text "Jane Doe")) None None);
            PostUsers (User.mk 0 [] [] [])]).
Defined.

(** ** Search by name *)

Lemma in_row_elems row c : in_row row c = true → c ∈ row_elems row.
Proof.
  destruct row as [[[lo count] step] target]. unfold in_row, row_elems.
  rewrite !andb_true_iff, N.leb_le, N.eqb_eq, N.ltb_lt.
  intros [[Hlo Hmod] Hdiv].
  apply list_elem_of_fmap. exists (N.to_nat ((c - lo) / step)). split.
  - rewrite N2Nat.id. pose proof (N.div_mod' (c - lo) step) as Hdm.
    rewrite Hmod, N.add_0_r, (N.mul_comm step) in Hdm.
    rewrite <- Hdm. lia.
  - apply elem_of_seq.
    assert (N.to_nat ((c - lo) / step) < N.to_nat count)%nat as Hlt.
    { apply Nat.compare_lt_iff. rewrite <- N2Nat.inj_compare.
      by apply N.compare_lt_iff. }
    split; [apply Nat.le_0_l|exact Hlt].
Qed.

Lemma lookup_lower_cases rows c :
  lookup_lower rows c = c ∨
  ∃ row, row ∈ rows ∧ c ∈ row_elems row ∧
         lookup_lower rows c = row_image row c.
Proof.
  induction rows as [|row rows IH]; [by left|]. simpl.
  destruct (in_row row c) eqn:Hin.
  - right. exists row. split; [left|]. split; [by apply in_row_elems|done].
  - destruct IH as [IH|(row' & Hrow & Hc & IH)]; [by left|].
    right. exists row'. split; [by right|done].
Qed.

Lemma lower_ranges_settled :
  forallb (λ row, forallb (λ c, settled (row_image row c)) (row_elems row))
          lower_ranges = true.
Proof. vm_compute. reflexivity. Qed.

Lemma to_lower_settled c : c ≠ 304%N → settled (to_lower c) = true.
Proof.
  intros H304. unfold to_lower.
  destruct (lookup_lower_cases lower_ranges c)
    as [Hid|(row & Hrow & Hc & ->)].
  - fold (to_lower c) in *. unfold settled. rewrite Hid, Hid, N.eqb_refl.
    destruct (N.eqb_spec c 931) as [->|_]; [by vm_compute in Hid|].
    destruct (N.eqb_spec c 304) as [->|_]; done.
  - pose proof lower_ranges_settled as Hall.
    rewrite forallb_forall in Hall.
    apply list_elem_of_In in Hrow. specialize (Hall _ Hrow).
    rewrite forallb_forall in Hall. apply Hall. by apply list_elem_of_In.
Qed.

Lemma settled_lower_at before c after :
  settled c = true → lower_at before c after = [c].
Proof.
  unfold settled, lower_at, to_lower_full.
  rewrite !andb_true_iff, !negb_true_iff, !N.eqb_neq, N.eqb_eq.
  intros [[H931 H304] Hc].
  destruct (N.eqb_spec c 931); [done|].
  destruct (N.eqb_spec c 304); [done|]. by rewrite Hc.
Qed.

Lemma lower_at_settled before c after :
  Forall (λ d, settled d = true) (lower_at before c after).
Proof.
  unfold lower_at, to_lower_full.
  destruct (N.eqb_spec c 931) as [->|_].
  { destruct (final_sigma before after); by repeat constructor. }
  destruct (N.eqb_spec c 304) as [->|H304].
  { by repeat constructor. }
  constructor; [by apply to_lower_settled|constructor].
Qed.

Lemma lower_from_settled s : ∀ before,
  Forall (λ d, settled d = true) (lower_from before s).
Proof.
  induction s as [|c s IH]; intros before; simpl; [constructor|].
  apply Forall_app. split; [apply lower_at_settled|apply IH].
Qed.

Lemma lower_from_fixed s : ∀ before,
  Forall (λ d, settled d = true) s → lower_from before s = s.
Proof.
  induction s as [|c s IH]; intros before Hs; [done|].
  apply Forall_cons in Hs as [Hc Hs]. simpl.
  by rewrite settled_lower_at, IH.
Qed.

Lemma lower_idem s : lower (lower s) = lower s.
Proof. apply lower_from_fixed, lower_from_settled. Qed.

Lemma lower_at_not_nil before c after : lower_at before c after ≠ [].
Proof.
  unfold lower_at, to_lower_full.
  destruct (c =? 931)%N; [done|]. by destruct (c =? 304)%N.
Qed.

Lemma lower_nil s : lower s = [] ↔ s = [].
Proof.
  split; [|by intros ->]. destruct s as [|c s]; [done|].
  unfold lower. simpl. intros [H _]%app_eq_nil.
  by apply lower_at_not_nil in H.
Qed.

Lemma starts_with_spec needle : ∀ hay,
  starts_with needle hay = true ↔ ∃ after, hay = needle ++ after.
Proof.
  induction needle as [|c needle IH]; intros hay; simpl.
  - split; [by exists hay|done].
  - destruct hay as [|d hay].
    + split; [done|]. by intros [after [=]].
    + rewrite andb_true_iff, N.eqb_eq, IH. split.
      * intros [-> [after ->]]. by exists after.
      * intros [after [= -> ->]]. split; [done|]. by exists after.
Qed.

Lemma str_in_spec needle : ∀ hay,
  str_in needle hay = true ↔ occurs_in needle hay.
Proof.
  unfold occurs_in.
  induction hay as [|c hay IH]; simpl str_in;
    rewrite orb_true_iff, starts_with_spec.
  - split.
    + intros [[after H]|H]; [|done]. by exists [], after.
    + intros ([|d before] & after & H); [|done].
      left. by exists after.
  - rewrite IH. split.
    + intros [[after H]|(before & after & H)].
      * by exists [], after.
      * exists (c :: before), after. simpl. congruence.
    + intros ([|d before] & after & H).
      * left. by exists after.
      * right. exists before, after. simpl in H. congruence.
Qed.

Lemma name_matches_occurs query user :
  name_matches query user = true ↔
  occurs_in (lower query) (lower (User.name user)).
Proof. apply str_in_spec. Qed.

Lemma elem_of_db_values user (users_db : Store) :
  user ∈ db_values users_db ↔ ∃ key, users_db !! key = Some user.
Proof.
  unfold db_values. rewrite list_elem_of_fmap. split.
  - intros ([key user'] & -> & H). exists key.
    by apply elem_of_map_to_list.
  - intros [key H]. exists (key, user). split; [done|].
    by apply elem_of_map_to_list.
Qed.

(** C5, where the code departs from it: search-by-name should return the
    stored records whose name contains the query as a case-insensitive
    substring.  Create two users, one named with the Greek capitals alpha,
    sigma (U+0391 U+03A3), one with the capitals kappa, omega, sigma, tau,
    alpha, sigma.  The query capital sigma occurs in both names as they
    stand, yet the answer holds the second user only: the sigma that ends a
    name is lowered to the final small sigma U+03C2, the sigma of the query
    to U+03C3.  The query omega, sigma occurs in the second name, yet the
    answer is the empty list. *)
Theorem search_misses_capital_sigma :
  let alpha_sigma :=
    User.mk 1 [913; 931]%N (text "1234567890") (text "Athens") in
  let kostas :=
    User.mk 2 [922; 937; 931; 932; 913; 931]%N (text "1234567890")
            (text "Athens") in
  let users_db := (post_users kostas (post_users alpha_sigma ∅).2).2 in
  users_db !! 1 = Some alpha_sigma ∧ users_db !! 2 = Some kostas ∧
  occurs_in [931]%N (User.name alpha_sigma) ∧
  get_users_search [931]%N users_db =
    (mkResponse 200 (BUsers [kostas]), users_db) ∧
  occurs_in [937; 931]%N (User.name kostas) ∧
  get_users_search [937; 931]%N users_db =
    (mkResponse 200 (BUsers []), users_db).
Proof.
  cbv zeta. split; [reflexivity|]. split; [reflexivity|]. split.
  { exists [913%N], []. reflexivity. }
  split; [vm_compute; reflexivity|]. split.
  { exists [922%N], [932; 913; 931]%N. reflexivity. }
  vm_compute. reflexivity.
Qed.

(** ** Worked examples *)

Example lower_mixed :
  lower (text "John DOE-42 [Z]") = text "john doe-42 [z]".
Proof. reflexivity. Qed.

Example lower_edges :
  lower [64; 65; 90; 91; 191; 192; 214; 215; 216; 222; 223; 255]%N =
    [64; 97; 122; 91; 191; 224; 246; 215; 248; 254; 223; 255]%N ∧
  lower [304]%N = [105; 775]%N ∧
  lower [931]%N = [963]%N ∧
  lower [913; 931]%N = [945; 962]%N ∧
  lower [913; 931; 913]%N = [945; 963; 945]%N ∧
  lower [913; 39; 931; 46]%N = [945; 39; 962; 46]%N ∧
  lower [8490; 1044; 66560]%N = [107; 1076; 66600]%N.
Proof. by vm_compute. Qed.

Example str_in_examples :
  str_in [] [] = true ∧ str_in (text "doe") (text "john doe") = true ∧
  str_in (text "hn d") (text "john doe") = true ∧
  str_in (text "jd") (text "john doe") = false ∧
  str_in (text "john doe!") (text "john doe") = false.
Proof. repeat split. Qed.

Example search_examples :
  let jane :=
    User.mk 2 (text "Jane Roe") (text "0987654321") (text "5 High St") in
  let users_db : Store := {[1 := john; 2 := jane]} in
  (get_users_search (text "roe") users_db).1 =
    mkResponse 200 (BUsers [jane]) ∧
  (get_users_search (text "DOE") users_db).1 =
    mkResponse 200 (BUsers [john]) ∧
  (get_users_search (text "smith") users_db).1 =
    mkResponse 200 (BUsers []) ∧
  (get_users_search [] users_db).1 = mkResponse 422 (BInvalid ["name"]).
Proof. vm_compute. repeat split. Qed.

(** The session of the specification's last testable property. *)
Example session :
  let jane :=
    User.mk 1 (text "Jane Doe") (text "1234567890") (text "123 Main St") in
  let '(r1, db1) := post_users john ∅ in
  let '(r2, db2) := get_users_id 1 db1 in
  let '(r3, db3) :=
    put_users_id 1 (UserUpdate.mk (Some (text "Jane Doe")) None None) db2 in
  let '(r4, db4) := get_users_id 1 db3 in
  let '(r5, db5) := delete_users_id 1 db4 in
  let '(r6, db6) := get_users_id 1 db5 in
  [r1; r2; r3; r4; r5; r6] =
  [mkResponse 201 (BMessage "User created successfully");
   mkResponse 200 (BUser john);
   mkResponse 200 (BMessage "User updated successfully");
   mkResponse 200 (BUser jane);
   mkResponse 200 (BMessage "User deleted successfully");
   not_found] ∧ db6 = ∅.
Proof. vm_compute. split; reflexivity. Qed.

Example update_validation :
  put_users_id 1 (UserUpdate.mk (Some []) (Some (text "123")) None)
    {[1 := john]} =
    (mkResponse 422 (BInvalid ["name"; "phone_no"]), {[1 := john]}) ∧
  put_users_id 7 (UserUpdate.mk (Some []) None None) ∅ =
    (mkResponse 422 (BInvalid ["name"]), ∅) ∧
  put_users_id 7 (UserUpdate.mk (Some (text "Ann")) None None) ∅ =
    (not_found, ∅).
Proof. repeat split. Qed.

(** ** Schema validation of update and search requests *)

Lemma opt_length_between_false lo hi o :
  opt_length_between lo hi o = false ↔
  ∃ s, o = Some s ∧
       ((length s < lo)%nat ∨ (hi < length s)%nat).
Proof.
  destruct o as [s|]; simpl.
  - unfold length_between. rewrite andb_false_iff, !Nat.leb_gt. split.
    + intros H. by exists s.
    + by intros (s' & [= <-] & H).
  - split; [done|]. by intros (s & [=] & _).
Qed.

Lemma validate_UserUpdate_violates user_update :
  validate_UserUpdate user_update ≠ [] ↔
  violates_update_constraint user_update.
Proof.
  unfold validate_UserUpdate, violates_update_constraint.
  rewrite !app_nil, !check_nil. split.
  - intros Hnot.
    destruct (opt_length_between 1 100 (UserUpdate.name user_update))
      eqn:Hn.
    2: { apply opt_length_between_false in Hn as (s & Hs & Hb).
         left. exists s. split; [done|lia]. }
    destruct (opt_length_between 10 15 (UserUpdate.phone_no user_update))
      eqn:Hp.
    2: { apply opt_length_between_false in Hp as (s & Hs & Hb).
         right; left. by exists s. }
    destruct (opt_length_between 1 200 (UserUpdate.address user_update))
      eqn:Ha.
    2: { apply opt_length_between_false in Ha as (s & Hs & Hb).
         right; right. exists s. split; [done|lia]. }
    by destruct Hnot.
  - intros [(s & Hs & Hb)|[(s & Hs & Hb)|(s & Hs & Hb)]] (Hn & Hp & Ha).
    + assert (opt_length_between 1 100 (UserUpdate.name user_update) = false)
        as Hf by (apply opt_length_between_false; exists s; split; [done|lia]).
      congruence.
    + assert (opt_length_between 10 15 (UserUpdate.phone_no user_update)
              = false)
        as Hf by (apply opt_length_between_false; by exists s).
      congruence.
    + assert (opt_length_between 1 200 (UserUpdate.address user_update)
              = false)
        as Hf by (apply opt_length_between_false; exists s; split; [done|lia]).
      congruence.
Qed.

Lemma put_users_id_status id user_update users_db :
  status_code (put_users_id id user_update users_db).1 = 422 ↔
  validate_UserUpdate user_update ≠ [].
Proof.
  unfold put_users_id.
  destruct (validate_UserUpdate user_update) as [|field fields] eqn:Hv;
    simpl; [|done].
  unfold respond. rewrite update_user_run.
  destruct (users_db !! id); simpl; (split; [discriminate | by intros []]).
Qed.

Lemma elem_of_check field name ok :
  field ∈ check name ok ↔ field = name ∧ ok = false.
Proof.
  destruct ok; simpl.
  - split; [by intros ?%elem_of_nil|by intros [_ ?]].
  - rewrite list_elem_of_singleton. split; [done|by intros [? _]].
Qed.

(** X1: an update request is answered 422 exactly when some supplied field
    is outside its bound (name empty or longer than 100, phone_no shorter
    than 10 or longer than 15, address empty or longer than 200); this
    answer comes before the look-up of the id, so also when the id is
    absent, and leaves the store as it was.  It lists the refused fields:
    each of "name", "phone_no" and "address" is listed exactly when that
    field is supplied and outside its own bound, and nothing else is
    listed. *)
Theorem update_body_validation (id : Z) (user_update : UserUpdate.t)
    (users_db : Store) :
  (status_code (put_users_id id user_update users_db).1 = 422 ↔
   violates_update_constraint user_update) ∧
  (violates_update_constraint user_update →
   put_users_id id user_update users_db =
     (mkResponse 422 (BInvalid (validate_UserUpdate user_update)), users_db) ∧
   validate_UserUpdate user_update ≠ []) ∧
  ("name" ∈ validate_UserUpdate user_update ↔
   ∃ name, UserUpdate.name user_update = Some name ∧
     (length name = 0%nat ∨ (100 < length name)%nat)) ∧
  ("phone_no" ∈ validate_UserUpdate user_update ↔
   ∃ phone_no, UserUpdate.phone_no user_update = Some phone_no ∧
     ((length phone_no < 10)%nat ∨ (15 < length phone_no)%nat)) ∧
  ("address" ∈ validate_UserUpdate user_update ↔
   ∃ address, UserUpdate.address user_update = Some address ∧
     (length address = 0%nat ∨ (200 < length address)%nat)) ∧
  (∀ field, field ∈ validate_UserUpdate user_update →
     field = "name" ∨ field = "phone_no" ∨ field = "address").
Proof.
  split; [|split].
  - rewrite put_users_id_status. apply validate_UserUpdate_violates.
  - intros Hv. apply validate_UserUpdate_violates in Hv.
    split; [|done]. by apply put_users_id_invalid.
  - unfold validate_UserUpdate.
    setoid_rewrite elem_of_app. setoid_rewrite elem_of_app.
    setoid_rewrite elem_of_check.
    rewrite !opt_length_between_false.
    split; [|split; [|split]].
    + split.
      * intros [[_ (s & Hs & Hb)]|[[[=] _]|[[=] _]]].
        exists s. split; [done|lia].
      * intros (s & Hs & Hb). left. split; [done|].
        exists s. split; [done|lia].
    + split.
      * intros [[[=] _]|[[_ (s & Hs & Hb)]|[[=] _]]]. by exists s.
      * intros (s & Hs & Hb). right; left. split; [done|]. by exists s.
    + split.
      * intros [[[=] _]|[[[=] _]|[_ (s & Hs & Hb)]]].
        exists s. split; [done|lia].
      * intros (s & Hs & Hb). right; right. split; [done|].
        exists s. split; [done|lia].
    + intros field [[-> _]|[[-> _]|[-> _]]]; tauto.
Qed.

Lemma update_body_validation_witness :
  put_users_id 7 (UserUpdate.mk (Some []) (Some (text "12345")) None) ∅ =
    (mkResponse 422 (BInvalid ["name"; "phone_no"]), ∅) ∧
  validate_UserUpdate (UserUpdate.mk (Some []) (Some (text "12345")) None)
    ≠ [].
Proof.
  pose proof (update_body_validation 7
                (UserUpdate.mk (Some []) (Some (text "12345")) None) ∅)
    as (_ & Hrefused & _).
  apply Hrefused.
  left. exists []. split; [reflexivity|]. left. reflexivity.
Defined.

Lemma get_users_search_status query (users_db : Store) :
  get_users_search query users_db =
  match query with
  | [] => (mkResponse 422 (BInvalid ["name"]), users_db)
  | _ =>
      (mkResponse 200
         (BUsers (filter (λ user, name_matches query user = true)
                         (db_values users_db))),
       users_db)
  end.
Proof. by destruct query. Qed.

(** X2: search-by-name is answered 422 exactly when the query is the empty
    string, without touching the store; every other query is answered 200,
    so a search is never answered 404. *)
Theorem search_query_validation (query : str) (users_db : Store) :
  (status_code (get_users_search query users_db).1 = 422 ↔ query = []) ∧
  (query = [] →
   get_users_search query users_db =
     (mkResponse 422 (BInvalid ["name"]), users_db)) ∧
  (query ≠ [] → status_code (get_users_search query users_db).1 = 200).
Proof.
  rewrite get_users_search_status.
  destruct query as [|c query]; simpl; repeat split; done.
Qed.

Lemma search_query_validation_witness :
  get_users_search [] {[1 := john]} =
    (mkResponse 422 (BInvalid ["name"]), {[1 := john]}) ∧
  status_code (get_users_search (text "x") {[1 := john]}).1 = 200.
Proof.
  split.
  - apply (search_query_validation [] {[1 := john]}). reflexivity.
  - apply (search_query_validation (text "x") {[1 := john]}). discriminate.
Defined.

(** ** What a request does to the store, and what it answers *)

Lemma post_users_run user users_db :
  post_users user users_db =
  match validate_User user, users_db !! User.id user with
  | [], None =>
      (mkResponse 201 (BMessage "User created successfully"),
       <[User.id user := user]> users_db)
  | [], Some _ => (already_exists, users_db)
  | fields, _ => (mkResponse 422 (BInvalid fields), users_db)
  end.
Proof.
  unfold post_users.
  destruct (validate_User user) as [|field fields]; [|done].
  unfold respond, create_user, mbind, Handler_bind, read_db.
  by destruct (users_db !! User.id user).
Qed.

Lemma put_users_id_run id user_update users_db :
  put_users_id id user_update users_db =
  match validate_UserUpdate user_update, users_db !! id with
  | [], Some user =>
      (mkResponse 200 (BMessage "User updated successfully"),
       <[id := apply_update user_update user]> users_db)
  | [], None => (not_found, users_db)
  | fields, _ => (mkResponse 422 (BInvalid fields), users_db)
  end.
Proof.
  unfold put_users_id.
  destruct (validate_UserUpdate user_update) as [|field fields]; [|done].
  unfold respond. rewrite update_user_run.
  by destruct (users_db !! id).
Qed.

Lemma delete_users_id_run id users_db :
  delete_users_id id users_db =
  match users_db !! id with
  | Some _ =>
      (mkResponse 200 (BMessage "User deleted successfully"),
       delete id users_db)
  | None => (not_found, users_db)
  end.
Proof.
  unfold delete_users_id, respond. rewrite delete_user_run.
  by destruct (users_db !! id).
Qed.

(** X3: each route answers with one of its own statuses only: create 201,
    400 or 422; search 200 or 422; get-by-id 200 or 404; update 200, 404 or
    422; delete 200 or 404; the welcome route 200. *)
Theorem status_codes (request : Request) (users_db : Store) :
  let status := status_code (app request users_db).1 in
  match request with
  | PostUsers _ => status = 201 ∨ status = 400 ∨ status = 422
  | GetUsersSearch _ => status = 200 ∨ status = 422
  | GetUsersId _ => status = 200 ∨ status = 404
  | PutUsersId _ _ => status = 200 ∨ status = 404 ∨ status = 422
  | DeleteUsersId _ => status = 200 ∨ status = 404
  | GetRoot => status = 200
  end.
Proof.
  destruct request as [user|name|id|id user_update|id|]; simpl.
  - rewrite post_users_run.
    destruct (validate_User user), (users_db !! User.id user); simpl; tauto.
  - rewrite get_users_search_status. destruct name; simpl; tauto.
  - rewrite get_users_id_run. unfold lookup_response.
    destruct (users_db !! id); simpl; tauto.
  - rewrite put_users_id_run.
    destruct (validate_UserUpdate user_update), (users_db !! id); simpl; tauto.
  - rewrite delete_users_id_run. destruct (users_db !! id); simpl; tauto.
  - tauto.
Qed.

(** X4: a request changes the store only if it is a create answered 201 or
    an update or a delete answered 200.  Hence every failure answer (status
    400 and up) leaves the store as it was, and so do get-by-id, search and
    the welcome route whatever their input; the welcome route answers its
    fixed message. *)
Theorem store_changes_only_by_writes (request : Request) (users_db : Store) :
  ((app request users_db).2 ≠ users_db →
   (∃ user, request = PostUsers user ∧
            status_code (app request users_db).1 = 201) ∨
   (∃ id user_update, request = PutUsersId id user_update ∧
            status_code (app request users_db).1 = 200) ∨
   (∃ id, request = DeleteUsersId id ∧
            status_code (app request users_db).1 = 200)) ∧
  (is_failure (app request users_db).1 →
   (app request users_db).2 = users_db) ∧
  get_root users_db =
    (mkResponse 200
       (BMessage
          "Welcome to the User Management API! Access the docs at /docs."),
     users_db).
Proof.
  split; [|split; [|done]].
  - destruct request as [user|name|id|id user_update|id|]; simpl.
    + rewrite post_users_run.
      destruct (validate_User user), (users_db !! User.id user); simpl;
        try done.
      intros _. left. by exists user.
    + rewrite get_users_search_status. by destruct name.
    + by rewrite get_users_id_run.
    + rewrite put_users_id_run.
      destruct (validate_UserUpdate user_update), (users_db !! id); simpl;
        try done.
      intros _. right; left. by exists id, user_update.
    + rewrite delete_users_id_run. destruct (users_db !! id); simpl;
        try done.
      intros _. right; right. by exists id.
    + done.
  - unfold is_failure.
    destruct request as [user|name|id|id user_update|id|]; simpl.
    + rewrite post_users_run.
      destruct (validate_User user), (users_db !! User.id user); simpl;
        try done; lia.
    + rewrite get_users_search_status. by destruct name.
    + by rewrite get_users_id_run.
    + rewrite put_users_id_run.
      destruct (validate_UserUpdate user_update), (users_db !! id); simpl;
        try done; lia.
    + rewrite delete_users_id_run. destruct (users_db !! id); simpl;
        try done; lia.
    + done.
Qed.

Lemma store_changes_only_by_writes_witness :
  (app (PostUsers john) {[1 := john]}).2 = {[1 := john]} ∧
  (app (PutUsersId 2 empty_update) {[1 := john]}).2 = {[1 := john]}.
Proof.
  split.
  - apply (store_changes_only_by_writes (PostUsers john) {[1 := john]}).
    unfold is_failure. vm_compute. discriminate.
  - apply (store_changes_only_by_writes (PutUsersId 2 empty_update)
             {[1 := john]}).
    unfold is_failure. vm_compute. discriminate.
Defined.

(** X5: the life of a key across one request.  A key that was absent and is
    present afterwards was created by this request, a create of a record
    with that id, which is the record now stored; a key that was present and
    is absent afterwards was removed by a delete of that key; a record that
    differs from the one stored before under the same key was written by an
    update of that key, and is the old record with the update applied. *)
Theorem key_lifecycle (request : Request) (key : Z) (users_db : Store) :
  (users_db !! key = None →
   ∀ user, (app request users_db).2 !! key = Some user →
     request = PostUsers user ∧ User.id user = key) ∧
  (is_Some (users_db !! key) →
   (app request users_db).2 !! key = None →
   request = DeleteUsersId key) ∧
  (∀ user user',
     users_db !! key = Some user →
     (app request users_db).2 !! key = Some user' →
     user' ≠ user →
     ∃ user_update,
       request = PutUsersId key user_update ∧
       user' = apply_update user_update user).
Proof.
  destruct request as [new|name|id|id user_update|id|]; simpl;
    rewrite ?post_users_run, ?get_users_search_status, ?get_users_id_run,
      ?put_users_id_run, ?delete_users_id_run.
  - destruct (validate_User new), (users_db !! User.id new) eqn:Hk; simpl;
      (split; [|split]); try congruence;
      try (intros [? ?]; congruence).
    + intros Hnone user.
      destruct (decide (User.id new = key)) as [<-|Hne].
      * rewrite lookup_insert_eq. by intros [= <-].
      * rewrite lookup_insert_ne by done. congruence.
    + intros [old Hold].
      destruct (decide (User.id new = key)) as [<-|Hne].
      * by rewrite lookup_insert_eq.
      * rewrite lookup_insert_ne by done. congruence.
    + intros user user' Hu.
      destruct (decide (User.id new = key)) as [<-|Hne]; [congruence|].
      rewrite lookup_insert_ne by done. congruence.
  - destruct name; simpl; (split; [|split]); try congruence;
      intros [? ?]; congruence.
  - simpl. (split; [|split]); try congruence. intros [? ?]; congruence.
  - destruct (validate_UserUpdate user_update), (users_db !! id) eqn:Hk;
      simpl; (split; [|split]); try congruence;
      try (intros [? ?]; congruence).
    + intros Hnone user.
      destruct (decide (id = key)) as [<-|Hne]; [congruence|].
      rewrite lookup_insert_ne by done. congruence.
    + intros [old Hold].
      destruct (decide (id = key)) as [<-|Hne].
      * by rewrite lookup_insert_eq.
      * rewrite lookup_insert_ne by done. congruence.
    + intros user user' Hu.
      destruct (decide (id = key)) as [<-|Hne].
      * rewrite lookup_insert_eq. intros [= <-] _.
        exists user_update. split; [done|]. congruence.
      * rewrite lookup_insert_ne by done. congruence.
  - destruct (users_db !! id) eqn:Hk; simpl; (split; [|split]);
      try congruence; try (intros [? ?]; congruence).
    + intros Hnone user. rewrite lookup_delete_Some. intros [_ ?]. congruence.
    + intros [old Hold].
      destruct (decide (id = key)) as [<-|Hne]; [done|].
      rewrite lookup_delete_ne by done. congruence.
    + intros user user' Hu. rewrite lookup_delete_Some. intros [_ ?].
      congruence.
  - simpl. (split; [|split]); try congruence. intros [? ?]; congruence.
Qed.

Lemma key_lifecycle_witness :
  PostUsers john = PostUsers john ∧ User.id john = 1.
Proof.
  pose proof (key_lifecycle (PostUsers john) 1 ∅) as (Hnew & _ & _).
  apply Hnew; reflexivity.
Defined.

(** ** The key set under create, update and delete *)

(** X6: a create answered 201 adds exactly one key, the id of the new
    record, which was not a key before: the key set grows by that id, the
    number of records by one, and the record of every other key is
    untouched. *)
Theorem create_frame (user : User.t) (users_db : Store) :
  status_code (post_users user users_db).1 = 201 →
  users_db !! User.id user = None ∧
  dom (post_users user users_db).2 = {[User.id user]} ∪ dom users_db ∧
  size (post_users user users_db).2 = S (size users_db) ∧
  ∀ key, key ≠ User.id user →
    (post_users user users_db).2 !! key = users_db !! key.
Proof.
  rewrite post_users_run.
  destruct (validate_User user), (users_db !! User.id user) eqn:Hk; simpl;
    try done.
  intros _. split; [done|]. split; [apply dom_insert_L|].
  split; [by apply map_size_insert_None|].
  intros key Hne. by rewrite lookup_insert_ne.
Qed.

Lemma create_frame_witness :
  ({[1 := john]} : Store) !! User.id ann =
    None ∧
  dom (post_users ann {[1 := john]}).2 =
    {[2]} ∪ dom ({[1 := john]} : Store) ∧
  size (post_users ann {[1 := john]}).2 =
    S (size ({[1 := john]} : Store)) ∧
  ∀ key, key ≠ 2 →
    (post_users ann {[1 := john]}).2 !! key =
    ({[1 := john]} : Store) !! key.
Proof.
  apply (create_frame ann {[1 := john]}).
  reflexivity.
Defined.

(** X7: a delete answered 200 removes exactly one key, the id asked for,
    which was a key before: the key set shrinks by that id, the number of
    records by one, and the record of every other key is untouched. *)
Theorem delete_frame (id : Z) (users_db : Store) :
  status_code (delete_users_id id users_db).1 = 200 →
  is_Some (users_db !! id) ∧
  dom (delete_users_id id users_db).2 = dom users_db ∖ {[id]} ∧
  S (size (delete_users_id id users_db).2) = size users_db ∧
  ∀ key, key ≠ id →
    (delete_users_id id users_db).2 !! key = users_db !! key.
Proof.
  rewrite delete_users_id_run.
  destruct (users_db !! id) as [user|] eqn:Hk; simpl; [|done].
  intros _. split; [done|]. split; [apply dom_delete_L|]. split.
  - rewrite map_size_delete, Hk.
    assert (size users_db ≠ 0%nat) as Hne; [|by destruct (size users_db)].
    intros Hz. apply map_size_empty_inv in Hz. subst.
    by rewrite lookup_empty in Hk.
  - intros key Hne. by rewrite lookup_delete_ne.
Qed.

Lemma delete_frame_witness :
  is_Some (({[1 := john]} : Store) !! 1) ∧
  dom (delete_users_id 1 {[1 := john]}).2 =
    dom ({[1 := john]} : Store) ∖ {[1]} ∧
  S (size (delete_users_id 1 {[1 := john]}).2) =
    size ({[1 := john]} : Store) ∧
  ∀ key, key ≠ 1 →
    (delete_users_id 1 {[1 := john]}).2 !! key =
    ({[1 := john]} : Store) !! key.
Proof.
  apply (delete_frame 1 {[1 := john]}). reflexivity.
Defined.

(** X8: an update never adds or removes a key, whatever its answer: the key
    set and the number of records after an update request are those before
    it. *)
Theorem update_keeps_keys (id : Z) (user_update : UserUpdate.t)
    (users_db : Store) :
  dom (put_users_id id user_update users_db).2 = dom users_db ∧
  size (put_users_id id user_update users_db).2 = size users_db.
Proof.
  rewrite put_users_id_run.
  destruct (validate_UserUpdate user_update), (users_db !! id) eqn:Hk; simpl;
    try done.
  split.
  - apply dom_insert_lookup_L. by eauto.
  - apply map_size_insert_Some. by eauto.
Qed.

(** X9: creating a valid record under a fresh id and then deleting that id
    gives back the store one started from: the delete answers 200 and the
    store equals the store before the create. *)
Theorem create_then_delete (user : User.t) (users_db : Store) :
  valid_user user →
  users_db !! User.id user = None →
  delete_users_id (User.id user) (post_users user users_db).2 =
    (mkResponse 200 (BMessage "User deleted successfully"), users_db).
Proof.
  intros Hv Hk. apply validate_User_nil in Hv.
  rewrite post_users_run, Hv, Hk. simpl.
  rewrite delete_users_id_run, lookup_insert_eq.
  by rewrite delete_insert_id.
Qed.

Lemma create_then_delete_witness :
  delete_users_id (User.id john) (post_users john ∅).2 =
    (mkResponse 200 (BMessage "User deleted successfully"), ∅).
Proof.
  apply (create_then_delete john ∅).
  - unfold valid_user; simpl; lia.
  - reflexivity.
Defined.

(** X10: once an id has been deleted, a second delete of it answers 404 and
    changes nothing, and the id is free again: a create of any valid record
    with that id answers 201 and stores that record. *)
Theorem delete_frees_id (user : User.t) (users_db : Store) :
  valid_user user →
  is_Some (users_db !! User.id user) →
  let deleted := (delete_users_id (User.id user) users_db).2 in
  delete_users_id (User.id user) deleted = (not_found, deleted) ∧
  post_users user deleted =
    (mkResponse 201 (BMessage "User created successfully"),
     <[User.id user := user]> users_db).
Proof.
  intros Hv [old Hk]. apply validate_User_nil in Hv. simpl.
  rewrite !delete_users_id_run, Hk. simpl.
  rewrite lookup_delete_eq. split; [done|].
  rewrite post_users_run, Hv, lookup_delete_eq.
  by rewrite insert_delete_eq.
Qed.

Lemma delete_frees_id_witness :
  delete_users_id 1 (delete_users_id 1 {[1 := john]}).2 =
    (not_found, (delete_users_id 1 {[1 := john]}).2) ∧
  post_users john (delete_users_id 1 {[1 := john]}).2 =
    (mkResponse 201 (BMessage "User created successfully"),
     <[1 := john]> {[1 := john]}).
Proof.
  apply (delete_frees_id john {[1 := john]}).
  - unfold valid_user; simpl; lia.
  - exists john. reflexivity.
Defined.

(** ** Updates in a row *)

Lemma apply_update_merge first second user :
  apply_update second (apply_update first user) =
  apply_update (merge_update first second) user.
Proof.
  destruct first as [[?|] [?|] [?|]], second as [[?|] [?|] [?|]];
    by destruct user.
Qed.

Lemma apply_update_idem user_update user :
  apply_update user_update (apply_update user_update user) =
  apply_update user_update user.
Proof. destruct user_update as [[?|] [?|] [?|]]; by destruct user. Qed.

Lemma valid_update_merge first second :
  valid_update first → valid_update second →
  valid_update (merge_update first second).
Proof.
  intros (Hn1 & Hp1 & Ha1) (Hn2 & Hp2 & Ha2).
  destruct first as [n1 p1 a1], second as [[?|] [?|] [?|]]; simpl in *;
    (split; [|split]); assumption.
Qed.

(** X11: an update is idempotent: sending the same update request a second
    time gets the same answer as the first and leaves the store as the first
    left it, whether that answer is 200, 404 or 422. *)
Theorem update_idempotent (id : Z) (user_update : UserUpdate.t)
    (users_db : Store) :
  put_users_id id user_update (put_users_id id user_update users_db).2 =
  put_users_id id user_update users_db.
Proof.
  rewrite (put_users_id_run id user_update users_db).
  destruct (validate_UserUpdate user_update) as [|field fields] eqn:Hv,
           (users_db !! id) as [user|] eqn:Hk; simpl;
    rewrite put_users_id_run, Hv, ?Hk; try done.
  rewrite lookup_insert_eq, insert_insert_eq.
  by rewrite apply_update_idem.
Qed.

(** X12: two updates of the same id in a row, both within the bounds of the
    schema, amount to one update by the merged body, in which each field
    supplied by the second update wins and each field it omits comes from
    the first: same final answer, same final store. *)
Theorem update_twice_merges (id : Z) (first second : UserUpdate.t)
    (users_db : Store) :
  valid_update first → valid_update second →
  put_users_id id second (put_users_id id first users_db).2 =
  put_users_id id (merge_update first second) users_db.
Proof.
  intros H1 H2. pose proof (valid_update_merge _ _ H1 H2) as H12.
  apply validate_UserUpdate_nil in H1, H2, H12.
  rewrite (put_users_id_run id first), H1.
  rewrite (put_users_id_run id (merge_update first second)), H12.
  destruct (users_db !! id) as [user|] eqn:Hk; simpl;
    rewrite put_users_id_run, H2.
  - rewrite lookup_insert_eq, insert_insert_eq.
    by rewrite apply_update_merge.
  - by rewrite Hk.
Qed.

Lemma update_twice_merges_witness :
  put_users_id 1 second_update
    (put_users_id 1 first_update
       {[1 := john]}).2 =
  put_users_id 1
    (merge_update first_update
                  second_update)
    {[1 := john]}.
Proof.
  apply (update_twice_merges 1
           first_update
           second_update
           {[1 := john]}).
  - unfold valid_update; simpl.
    (split; [|split]); intros s Hs; inversion Hs; simpl; lia.
  - unfold valid_update; simpl.
    (split; [|split]); intros s Hs; inversion Hs; simpl; lia.
Defined.

(** ** More on search *)

Lemma occurs_in_trans (s t u : str) :
  occurs_in s t → occurs_in t u → occurs_in s u.
Proof.
  intros (b1 & a1 & ->) (b2 & a2 & ->).
  exists (b2 ++ b1), (a1 ++ a2). by rewrite <- !app_assoc.
Qed.

Lemma filter_sublist_impl {A : Type} (P Q : A → Prop)
    `{!∀ x, Decision (P x), !∀ x, Decision (Q x)} (l : list A) :
  (∀ x, P x → Q x) → filter P l `sublist_of` filter Q l.
Proof.
  intros HPQ. rewrite <- (list_filter_filter_l P Q) by done.
  apply sublist_filter.
Qed.

(** X13: the case of the query does not matter: two queries that are equal
    once put in lower case get the same answer from search-by-name on every
    store, and so does a query and its own lower case. *)
Theorem search_ignores_query_case (query query' : str) (users_db : Store) :
  lower query = lower query' →
  get_users_search query users_db = get_users_search query' users_db ∧
  get_users_search (lower query) users_db = get_users_search query users_db.
Proof.
  assert (∀ q q', lower q = lower q' →
            get_users_search q users_db = get_users_search q' users_db) as H.
  { intros q q' Hq. rewrite !get_users_search_status.
    destruct q as [|c q], q' as [|c' q']; [done| | |].
    - symmetry in Hq. change (lower []) with (@nil N) in Hq.
      by apply (proj1 (lower_nil _)) in Hq.
    - change (lower []) with (@nil N) in Hq.
      by apply (proj1 (lower_nil _)) in Hq.
    - unfold name_matches. by rewrite Hq. }
  intros Hq. split; [by apply H|]. apply H, lower_idem.
Qed.

Lemma search_ignores_query_case_witness :
  get_users_search (text "DoE") {[1 := john]} =
    get_users_search (text "dOe") {[1 := john]} ∧
  get_users_search (lower (text "DoE")) {[1 := john]} =
    get_users_search (text "DoE") {[1 := john]}.
Proof.
  apply (search_ignores_query_case (text "DoE") (text "dOe") {[1 := john]}).
  reflexivity.
Defined.

(** X14: whatever the query, the user objects that search-by-name returns
    are exactly the records of the store in whose lower-cased name the
    lower-cased query occurs as a contiguous run of code points; an empty
    query returns none. *)
Theorem search_returns_lowered_matches (query : str) (user : User.t)
    (users_db : Store) :
  user ∈ users_of (get_users_search query users_db).1 ↔
  query ≠ [] ∧
  (∃ key, users_db !! key = Some user) ∧
  occurs_in (lower query) (lower (User.name user)).
Proof.
  rewrite get_users_search_status.
  destruct query as [|c query]; simpl.
  - split; [by intros ?%elem_of_nil|by intros [? _]].
  - unfold users_of; simpl.
    rewrite list_elem_of_filter, elem_of_db_values, name_matches_occurs.
    split; [intros [? ?]|intros (_ & ? & ?)]; done.
Qed.

(** X15: a longer query narrows the search: if the lower case of a
    non-empty query occurs in the lower case of a second query, then on
    every store the users returned for the second query are among those
    returned for the first, in the same order. *)
Theorem search_narrows (query query' : str) (users_db : Store) :
  query ≠ [] →
  occurs_in (lower query) (lower query') →
  users_of (get_users_search query' users_db).1 `sublist_of`
  users_of (get_users_search query users_db).1.
Proof.
  intros Hq Hocc. rewrite !get_users_search_status.
  destruct query' as [|c' query']; [apply sublist_nil_l|].
  destruct query as [|c query]; [done|].
  unfold users_of; simpl.
  apply filter_sublist_impl. intros user.
  rewrite !name_matches_occurs. by apply occurs_in_trans.
Qed.

Lemma search_narrows_witness :
  users_of (get_users_search (text "John D") {[1 := john]}).1 `sublist_of`
  users_of (get_users_search (text "OHN") {[1 := john]}).1.
Proof.
  apply (search_narrows (text "OHN") (text "John D") {[1 := john]}).
  - discriminate.
  - exists (text "j"), (text " d"). reflexivity.
Defined.

Lemma to_lower_ascii_table :
  forallb (λ c, (to_lower c =? ascii_lower c)%N) (N.of_nat <$> seq 0 128)
  = true.
Proof. vm_compute. reflexivity. Qed.

Lemma to_lower_ascii c : is_ascii c → to_lower c = ascii_lower c.
Proof.
  intros Hc. unfold is_ascii in Hc.
  pose proof to_lower_ascii_table as Hall. rewrite forallb_forall in Hall.
  apply N.eqb_eq, Hall, list_elem_of_In, list_elem_of_fmap.
  exists (N.to_nat c). split; [by rewrite N2Nat.id|].
  apply elem_of_seq. lia.
Qed.

Lemma lower_from_ascii s : ∀ before,
  Forall is_ascii s → lower_from before s = ascii_lower <$> s.
Proof.
  induction s as [|c s IH]; intros before Hs; [done|].
  apply Forall_cons in Hs as [Hc Hs]. simpl. rewrite IH by done.
  unfold lower_at, to_lower_full.
  unfold is_ascii in Hc.
  destruct (N.eqb_spec c 931); [lia|].
  destruct (N.eqb_spec c 304); [lia|].
  by rewrite to_lower_ascii.
Qed.

Lemma ascii_lower_same c d :
  ascii_lower c = ascii_lower d ↔ same_letter c d.
Proof.
  unfold ascii_lower, same_letter.
  destruct (N.leb_spec 65 c), (N.leb_spec c 90), (N.leb_spec 65 d),
    (N.leb_spec d 90); simpl; lia.
Qed.

Lemma ascii_lower_Forall2 (s t : str) :
  ascii_lower <$> s = ascii_lower <$> t ↔ Forall2 same_letter s t.
Proof.
  revert t. induction s as [|c s IH]; intros [|d t].
  - split; [constructor|done].
  - split; [done|by intros ?%Forall2_nil_cons_inv].
  - split; [done|by intros ?%Forall2_cons_nil_inv].
  - rewrite !fmap_cons, Forall2_cons, <- IH, <- ascii_lower_same. split.
    + by intros [= ? ?].
    + by intros [-> ->].
Qed.

Lemma occurs_in_ascii_lower (query name : str) :
  occurs_in (ascii_lower <$> query) (ascii_lower <$> name) ↔
  occurs_ignoring_ascii_case query name.
Proof.
  unfold occurs_in, occurs_ignoring_ascii_case. split.
  - intros (before' & after' & H).
    apply fmap_app_inv in H as (before & rest & -> & H & ->).
    symmetry in H.
    apply fmap_app_inv in H as (run & after & Hrun & -> & ->).
    exists before, run, after. split; [done|].
    by apply ascii_lower_Forall2.
  - intros (before & run & after & -> & Hrun).
    apply ascii_lower_Forall2 in Hrun.
    exists (ascii_lower <$> before), (ascii_lower <$> after).
    by rewrite !fmap_app, Hrun.
Qed.

(** X22: on ASCII text the search ignores the case of letters, and nothing
    else: when the query is not empty and the query and every stored name
    hold ASCII code points only, the users returned are exactly the stored
    records whose name has a contiguous run equal to the query letter by
    letter, a letter A..Z counting as equal to its small letter. *)
Theorem search_ascii_case_insensitive (query : str) (user : User.t)
    (users_db : Store) :
  query ≠ [] →
  Forall is_ascii query →
  (∀ key stored, users_db !! key = Some stored →
     Forall is_ascii (User.name stored)) →
  (user ∈ users_of (get_users_search query users_db).1 ↔
   (∃ key, users_db !! key = Some user) ∧
   occurs_ignoring_ascii_case query (User.name user)).
Proof.
  intros Hq Hascii Hnames. rewrite get_users_search_status.
  destruct query as [|c query]; [done|]. unfold users_of; simpl.
  rewrite list_elem_of_filter, elem_of_db_values, name_matches_occurs.
  split.
  - intros [Hocc [key Hk]]. split; [by exists key|].
    unfold lower in Hocc.
    rewrite !lower_from_ascii in Hocc by eauto.
    by apply occurs_in_ascii_lower.
  - intros [[key Hk] Hocc]. split; [|by exists key].
    unfold lower. rewrite !lower_from_ascii by eauto.
    by apply occurs_in_ascii_lower.
Qed.

Lemma search_ascii_case_insensitive_witness :
  john ∈ users_of (get_users_search (text "n dO") {[1 := john]}).1.
Proof.
  apply (search_ascii_case_insensitive (text "n dO") john {[1 := john]}).
  - discriminate.
  - repeat (constructor; [reflexivity|]). constructor.
  - intros key stored Hk. apply lookup_singleton_Some in Hk as [_ <-].
    repeat (constructor; [reflexivity|]). constructor.
  - split; [by exists 1|].
    exists (text "Joh"), (text "n Do"), (text "e"). split; [reflexivity|].
    repeat (constructor; [unfold same_letter; simpl; lia|]). constructor.
Defined.

(** ** What the service returns and keeps over a run *)

Lemma db_values_ids (users_db : Store) :
  store_ok users_db →
  User.id <$> db_values users_db = (map_to_list users_db).*1.
Proof.
  intros Hok. unfold db_values. rewrite <- list_fmap_compose.
  apply Forall_fmap_ext_1, Forall_forall. intros [key user] Hin.
  apply elem_of_map_to_list in Hin. by destruct (Hok _ _ Hin) as [_ Hid].
Qed.

Lemma store_ok_values (users_db : Store) :
  store_ok users_db →
  Forall (λ user, validate_User user = []) (db_values users_db).
Proof.
  intros Hok. apply Forall_forall. intros user Hin.
  apply elem_of_db_values in Hin as [key Hk].
  apply validate_User_nil. by destruct (Hok _ _ Hk).
Qed.

(** X16: over any run from the empty store, every user object that a
    request returns passes the [User] schema (so the response model never
    refuses an answer), and the user objects of a search answer have
    pairwise distinct ids. *)
Theorem returned_users_valid (requests : list Request) (request : Request) :
  (∀ user,
     body (app request (serve requests ∅)).1 = BUser user →
     validate_User user = []) ∧
  (∀ users,
     body (app request (serve requests ∅)).1 = BUsers users →
     Forall (λ user, validate_User user = []) users ∧
     NoDup (User.id <$> users)).
Proof.
  assert (store_ok (serve requests ∅)) as Hok
    by apply serve_preserves, store_ok_empty.
  destruct request as [new|name|id|id user_update|id|]; simpl;
    rewrite ?post_users_run, ?get_users_search_status, ?get_users_id_run,
      ?put_users_id_run, ?delete_users_id_run.
  - by destruct (validate_User new), (serve requests ∅ !! User.id new).
  - destruct name as [|c name]; simpl; [done|].
    split; [done|]. intros users [= <-]. split.
    + apply Forall_forall. intros user [_ Hin]%list_elem_of_filter.
      revert user Hin. by apply Forall_forall, store_ok_values.
    + apply (sublist_NoDup _ (User.id <$> db_values (serve requests ∅))).
      * rewrite db_values_ids by done. apply NoDup_fst_map_to_list.
      * apply fmap_sublist, sublist_filter.
  - unfold lookup_response.
    destruct (serve requests ∅ !! id) as [user|] eqn:Hk; simpl; [|done].
    split; [|done]. intros user' [= <-].
    apply validate_User_nil. by destruct (Hok _ _ Hk).
  - by destruct (validate_UserUpdate user_update), (serve requests ∅ !! id).
  - by destruct (serve requests ∅ !! id).
  - done.
Qed.

Lemma returned_users_valid_witness :
  validate_User john = [].
Proof.
  pose proof (returned_users_valid [PostUsers john] (GetUsersId 1))
    as [Hone _].
  apply Hone. reflexivity.
Defined.

Lemma app_lookup_stable request id user (users_db : Store) :
  ¬ writes_to id request →
  users_db !! id = Some user →
  (app request users_db).2 !! id = Some user.
Proof.
  intros Hw Hk.
  destruct request as [new|name|id'|id' user_update|id'|]; simpl in *;
    rewrite ?post_users_run, ?get_users_search_status, ?get_users_id_run,
      ?put_users_id_run, ?delete_users_id_run.
  - destruct (validate_User new), (users_db !! User.id new) eqn:Hn; simpl;
      try done.
    rewrite lookup_insert_ne; [done|]. intros <-. congruence.
  - by destruct name.
  - done.
  - destruct (validate_UserUpdate user_update), (users_db !! id'); simpl;
      try done.
    by rewrite lookup_insert_ne.
  - destruct (users_db !! id'); simpl; [|done].
    by rewrite lookup_delete_ne.
  - done.
Qed.

(** X17: a stored record stays exactly as it is through any run of requests
    that holds no update and no delete of its id; creates (also of the same
    id, which are refused), reads, searches and writes to other ids do not
    touch it. *)
Theorem record_persists (requests : list Request) (id : Z) (user : User.t)
    (users_db : Store) :
  Forall (λ request, ¬ writes_to id request) requests →
  users_db !! id = Some user →
  serve requests users_db !! id = Some user.
Proof.
  revert users_db.
  induction requests as [|request requests IH]; intros users_db Hw Hk;
    [done|].
  apply Forall_cons in Hw as [Hw Hws]. simpl.
  apply IH; [done|]. by apply app_lookup_stable.
Qed.

Lemma record_persists_witness :
  serve [PostUsers (User.mk 1 (text "Impostor") (text "0000000000") (text "x"));
         PutUsersId 2 (UserUpdate.mk (Some (text "Ann")) None None);
         DeleteUsersId 3; GetUsersSearch (text "doe")] {[1 := john]} !! 1 =
  Some john.
Proof.
  apply (record_persists
           [PostUsers
              (User.mk 1 (text "Impostor") (text "0000000000") (text "x"));
            PutUsersId 2 (UserUpdate.mk (Some (text "Ann")) None None);
            DeleteUsersId 3; GetUsersSearch (text "doe")] 1 john {[1 := john]}).
  - repeat constructor; simpl; lia.
  - reflexivity.
Defined.

Lemma app_size_bound request (users_db : Store) :
  (size (app request users_db).2 ≤
   size users_db + (if is_create request then 1 else 0))%nat.
Proof.
  destruct request as [new|name|id|id user_update|id|]; simpl;
    rewrite ?post_users_run, ?get_users_search_status, ?get_users_id_run,
      ?put_users_id_run, ?delete_users_id_run.
  - destruct (validate_User new), (users_db !! User.id new) eqn:Hn; simpl;
      try lia.
    rewrite map_size_insert_None by done. lia.
  - destruct name; simpl; lia.
  - simpl. lia.
  - destruct (validate_UserUpdate user_update), (users_db !! id) eqn:Hk;
      simpl; try lia.
    rewrite map_size_insert_Some by eauto. lia.
  - destruct (users_db !! id) eqn:Hk; simpl; [|lia].
    rewrite map_size_delete, Hk. simpl. lia.
  - simpl. lia.
Qed.

(** X18: a run adds at most one record per create request it holds: the
    number of records after the run is at most the number before plus the
    number of create requests, so a run from the empty store never holds
    more records than creates were sent. *)
Theorem size_bounded_by_creates (requests : list Request) (users_db : Store) :
  (size (serve requests users_db) ≤ size users_db + count_creates requests)%nat
  ∧ (size (serve requests ∅) ≤ count_creates requests)%nat.
Proof.
  assert (∀ db : Store,
            (size (serve requests db) ≤ size db + count_creates requests)%nat)
    as H.
  { induction requests as [|request requests IH]; intros db;
      [unfold count_creates; simpl; lia|].
    simpl. specialize (IH (app request db).2).
    pose proof (app_size_bound request db) as Hb.
    unfold count_creates in *. simpl.
    destruct (is_create request); simpl in *; lia. }
  split; [apply H|]. specialize (H ∅). by rewrite map_size_empty in H.
Qed.

(** ** Writes seen through the read routes *)

(** X19: after an update answered 200, get-by-id on the same id answers 200
    with the updated record: each supplied field has the supplied value,
    each omitted field and the id are those of the record stored before. *)
Theorem update_then_get (id : Z) (user : User.t) (user_update : UserUpdate.t)
    (users_db : Store) :
  users_db !! id = Some user →
  status_code (put_users_id id user_update users_db).1 = 200 →
  get_users_id id (put_users_id id user_update users_db).2 =
    (mkResponse 200
       (BUser
          (User.mk (User.id user)
             (default (User.name user) (UserUpdate.name user_update))
             (default (User.phone_no user) (UserUpdate.phone_no user_update))
             (default (User.address user) (UserUpdate.address user_update)))),
     (put_users_id id user_update users_db).2).
Proof.
  intros Hk. rewrite put_users_id_run, Hk.
  destruct (validate_UserUpdate user_update); simpl; [|done].
  intros _. rewrite get_users_id_run. unfold lookup_response.
  rewrite lookup_insert_eq.
  destruct (apply_update_fields user_update user) as (Hi & Hn & Hp & Ha).
  rewrite <- Hi, <- Hn, <- Hp, <- Ha.
  by destruct (apply_update user_update user).
Qed.

Lemma update_then_get_witness :
  get_users_id 1
    (put_users_id 1 new_phone
       {[1 := john]}).2 =
  (mkResponse 200
     (BUser
        (User.mk 1 (text "John Doe") (text "5550001111")
                 (text "123 Main St"))),
   (put_users_id 1 new_phone
      {[1 := john]}).2).
Proof.
  apply (update_then_get 1 john new_phone
           {[1 := john]}).
  - reflexivity.
  - reflexivity.
Defined.

(** X20: a record that was just created is found by search: after a create
    answered 201, a search for the new record's own name returns it, and so
    does every non-empty query whose lower case occurs in the lower case of
    that name. *)
Theorem create_then_search (user : User.t) (users_db : Store) :
  status_code (post_users user users_db).1 = 201 →
  user ∈ users_of (get_users_search (User.name user)
                     (post_users user users_db).2).1 ∧
  ∀ query,
    query ≠ [] →
    occurs_in (lower query) (lower (User.name user)) →
    user ∈ users_of (get_users_search query (post_users user users_db).2).1.
Proof.
  rewrite post_users_run.
  destruct (validate_User user) eqn:Hv, (users_db !! User.id user) eqn:Hk;
    simpl; try done.
  intros _.
  assert (∀ query,
    query ≠ [] →
    occurs_in (lower query) (lower (User.name user)) →
    user ∈ users_of
      (get_users_search query (<[User.id user := user]> users_db)).1) as H.
  { intros query Hq Hocc. rewrite get_users_search_status.
    destruct query as [|c query]; [done|]. unfold users_of; simpl.
    apply list_elem_of_filter. split; [by apply name_matches_occurs|].
    apply elem_of_db_values. exists (User.id user). apply lookup_insert_eq. }
  split; [|exact H]. apply H.
  - apply validate_User_nil in Hv as (_ & Hname & _).
    destruct (User.name user); [simpl in Hname; lia|done].
  - exists [], []. simpl. by rewrite app_nil_r.
Qed.

Lemma create_then_search_witness :
  john ∈ users_of (get_users_search (User.name john) (post_users john ∅).2).1 ∧
  ∀ query,
    query ≠ [] →
    occurs_in (lower query) (lower (User.name john)) →
    john ∈ users_of (get_users_search query (post_users john ∅).2).1.
Proof.
  apply (create_then_search john ∅). reflexivity.
Defined.

(** X21: a deleted record is no longer found by search: on a store that
    satisfies the store invariant, after a delete of an id no query returns
    a user object with that id. *)
Theorem delete_then_search (id : Z) (query : str) (user : User.t)
    (users_db : Store) :
  store_ok users_db →
  user ∈ users_of (get_users_search query (delete_users_id id users_db).2).1 →
  User.id user ≠ id.
Proof.
  intros Hok Hin.
  assert (store_ok (delete_users_id id users_db).2) as Hok'
    by (by apply delete_users_id_preserves).
  assert ((delete_users_id id users_db).2 !! id = None) as Hgone.
  { rewrite delete_users_id_run.
    destruct (users_db !! id) eqn:Hk; simpl; [apply lookup_delete_eq|done]. }
  rewrite get_users_search_status in Hin.
  destruct query as [|c query]; [by apply elem_of_nil in Hin|].
  unfold users_of in Hin; simpl in Hin.
  apply list_elem_of_filter in Hin as [_ Hin].
  apply elem_of_db_values in Hin as [key Hk].
  destruct (Hok' _ _ Hk) as [_ Hid]. congruence.
Qed.

Lemma delete_then_search_witness :
  User.id john ≠ 2.
Proof.
  apply (delete_then_search 2 (text "doe") john
           {[1 := john; 2 := jane_doe]}).
  - intros key user Hk.
    apply lookup_insert_Some in Hk as [[<- <-]|[_ Hk]].
    + unfold valid_user; simpl. split; [lia|done].
    + apply lookup_singleton_Some in Hk as [<- <-].
      unfold valid_user; simpl. split; [lia|done].
  - vm_compute. left.
Defined.
